(** * zVault frontend harness: the two Playwright scripts

    Shallow embedding of [frontend/test-proof.py] ([test_deposit_flow]) and
    [frontend/test-zk-proof.py] ([test_zk_setup]).

    Python [str] values are modelled as [string]; [lower] is [str.lower] on
    ASCII text ([is_ascii]): it lowers the letters A-Z and leaves every other
    byte alone, where Python also lowers cased characters outside ASCII.  The
    browser is an interface ([Browser]) whose operations the scripts call and
    each of which may raise; a script is a computation in a small
    state-and-exception monad over the page, the standard output and a trace
    of the browser calls made. *)

From Stdlib Require Import Bool Ascii String List ZArith Lia DecimalString.
From stdpp Require Import base option list strings gmap.

(** ** Python string operations *)

Definition lower_ascii (c : ascii) : ascii :=
  let n := nat_of_ascii c in
  if (65 <=? n)%nat && (n <=? 90)%nat then ascii_of_nat (n + 32) else c.

(** [s.lower()] for [s] made of ASCII characters. *)
Fixpoint lower (s : string) : string :=
  match s with
  | EmptyString => EmptyString
  | String c s' => String (lower_ascii c) (lower s')
  end.

(** The strings on which [lower] is Python's [str.lower]: every character
    is below 128. *)
Fixpoint is_ascii (s : string) : bool :=
  match s with
  | EmptyString => true
  | String c s' => (nat_of_ascii c <? 128)%nat && is_ascii s'
  end.

(** [sub in s] on strings: [sub] occurs in [s] as a contiguous run. *)
Fixpoint str_in (sub s : string) : bool :=
  String.prefix sub s ||
  match s with
  | EmptyString => false
  | String _ s' => str_in sub s'
  end.

(** What [sub in s] means: [s] is [sub] with something before and after. *)
Definition substring_of (sub s : string) : Prop :=
  exists pre post, s = pre +:+ sub +:+ post.

(** Two keywords that differ only in the case of their letters. *)
Inductive case_permutation : string -> string -> Prop :=
  | case_permutation_nil : case_permutation EmptyString EmptyString
  | case_permutation_cons c c' s s' :
      lower_ascii c = lower_ascii c' ->
      case_permutation s s' ->
      case_permutation (String c s) (String c' s').

(** [str(n)] for an integer. *)
Definition str_of_int (n : Z) : string :=
  NilZero.string_of_int (Z.to_int n).

(** The double-quote character, as it occurs inside the CSS selectors. *)
Definition dq : string := String (ascii_of_nat 34) EmptyString.

(** ** Console buffer *)

(** A console message of the page: [msg.type] and [msg.text]. *)
Record ConsoleMessage := { msg_type : string; msg_text : string }.

(** The callback of [page.on("console", ...)]: the entry appended to
    [console_logs] is [f"[{msg.type}] {msg.text}"]. *)
Definition log_entry (msg : ConsoleMessage) : string :=
  "[" +:+ msg_type msg +:+ "] " +:+ msg_text msg.

(** ** Keyword filters *)

(** test-proof.py, [zk_keywords]. *)
Definition zk_keywords : list string :=
  [ "Deposit"; "ZK"; "Poseidon"; "proof"; "commitment"; "nullifier";
    "secret"; "note"; "circom"; "snark"; "groth16"; "wasm"; "zkey";
    "Prepare"; "Mint"; "Amount"; "taproot"; "address" ].

(** test-proof.py:
    [[log for log in console_logs
      if any(kw.lower() in log.lower() for kw in keywords)]] *)
Definition correlate (keywords console_logs : list string) : list string :=
  List.filter
    (fun log => existsb (fun kw => str_in (lower kw) (lower log)) keywords)
    console_logs.

Definition zk_logs (console_logs : list string) : list string :=
  correlate zk_keywords console_logs.

(** test-zk-proof.py:
    [[log for log in console_logs
      if 'Poseidon' in log or 'commitment' in log.lower()]] *)
Definition poseidon_logs (console_logs : list string) : list string :=
  List.filter
    (fun log => str_in "Poseidon" log || str_in "commitment" (lower log))
    console_logs.

(** test-zk-proof.py:
    [[log for log in console_logs if any(kw in log.lower() for kw in kws)]];
    the keyword is used as written, only the log line is lowered. *)
Definition zk_filter (kws console_logs : list string) : list string :=
  List.filter
    (fun log => existsb (fun kw => str_in kw (lower log)) kws)
    console_logs.

Definition zk_setup_keywords : list string := [ "zk"; "proof"; "snark"; "circom" ].

Definition zk_setup_logs (console_logs : list string) : list string :=
  zk_filter zk_setup_keywords console_logs.

(** ** Verdict of test-zk-proof.py *)

Definition marker : string := "Poseidon note created".

(** [wasm_response.status == 200 and zkey_response.status == 200 and
     vk_response.status == 200] *)
Definition status_ok (response_status : Z) : bool := (response_status =? 200)%Z.

Definition circuit_files_ok (wasm_status zkey_status vk_status : Z) : bool :=
  status_ok wasm_status && status_ok zkey_status && status_ok vk_status.

(** [any('Poseidon note created' in log for log in poseidon_logs)] *)
Definition poseidon_ok (console_logs : list string) : bool :=
  existsb (fun log => str_in marker log) (poseidon_logs console_logs).

(** The condition of the final [if circuit_files_ok and poseidon_ok]. *)
Definition overall_ok (wasm_status zkey_status vk_status : Z)
    (console_logs : list string) : bool :=
  circuit_files_ok wasm_status zkey_status vk_status && poseidon_ok console_logs.

(** ** Response headers *)

(** [response.headers.get('content-length', 'unknown')] on the header dict. *)
Definition content_length_field (headers : gmap string string) : string :=
  default "unknown" (headers !! "content-length").

(** The line printed for one probed file:
    [f"   {name}: {status} ({content-length or 'unknown'} bytes)"]. *)
Definition probe_line (name : string) (status : Z) (headers : gmap string string)
    : string :=
  "   " +:+ name +:+ ": " +:+ str_of_int status +:+
  " (" +:+ content_length_field headers +:+ " bytes)".

(** The value the script reports for the size of a probed file, as a Python
    value: the scripts never convert the header, so it is always a [str]. *)
Inductive pyval :=
  | PyInt (n : Z)
  | PyStr (s : string)
  | PyNone.

Definition content_length_reported (headers : gmap string string) : pyval :=
  PyStr (content_length_field headers).

(** ** The browser, seen through the Playwright calls the scripts make *)

(** [page.request.get(url)] answers with a status and a header dict. *)
Record Response := { status : Z; headers : gmap string string }.

(** The page is opaque: its state, its elements and what each call does to it
    belong to the browser and to the application under test.  Navigation,
    waits, screenshots and the actions on an element ([click_elem],
    [fill_elem]) may raise: the message of the exception, if any, is returned
    next to the page reached.  [http_get] may raise too.  [console] is what
    the page has sent to the console subscription so far. *)
Class Browser := {
  Page : Type;
  Elem : Type;
  query : Page -> string -> list Elem;
  goto : Page -> string -> Page * option string;
  wait_for_load_state : Page -> string -> Page * option string;
  wait_for_timeout : Page -> Z -> Page * option string;
  screenshot : Page -> string -> Page * option string;
  click_elem : Page -> Elem -> bool -> Page * option string;
  fill_elem : Page -> Elem -> string -> Page * option string;
  http_get : Page -> string -> Page * (Response + string);
  console : Page -> list ConsoleMessage
}.

(** [page.locator(css)] and [locator.first]. *)
Inductive Locator :=
  | Css (selector : string)
  | First (l : Locator).


(** How a piece of script ends: with a value, or with a Python exception
    (its message). *)
Inductive Result (A : Type) :=
  | Ok (a : A)
  | Raise (e : string).
Arguments Ok {A} a.
Arguments Raise {A} e.

Section Scripts.
Context {B : Browser}.

(** The elements a locator denotes on a page, in document order. *)
Fixpoint resolve (p : Page) (l : Locator) : list Elem :=
  match l with
  | Css selector => query p selector
  | First l' => firstn 1 (resolve p l')
  end.

(** Locator actions are strict: they need exactly one element. *)
Definition target (p : Page) (l : Locator) : Elem + string :=
  match resolve p l with
  | [] => inr "Timeout exceeded while waiting for locator"
  | [e] => inl e
  | _ :: _ :: _ => inr "strict mode violation: locator resolved to several elements"
  end.

(** The browser calls a run makes, in order. *)
Inductive Call :=
  | CGet (url : string)
  | CGoto (url : string)
  | CLoadState (state : string)
  | CCount (l : Locator)
  | CClick (e : Elem) (force : bool)
  | CFill (e : Elem) (value : string)
  | CWait (ms : Z)
  | CShot (path : string)
  | CClose.

Record World := {
  page : Page;
  stdout : list string;
  calls : list Call
}.

(** A piece of script: it runs on a world and either finishes or raises. *)
Definition M (A : Type) : Type := World -> Result A * World.

#[global] Instance M_ret : MRet M := fun A a w => (Ok a, w).
#[global] Instance M_bind : MBind M := fun A C f m w =>
  match m w with
  | (Ok a, w') => f a w'
  | (Raise e, w') => (Raise e, w')
  end.

(** [try: body except Exception as e: handler(e)] *)
Definition try_except (body : M unit) (handler : string -> M unit) : M unit :=
  fun w =>
    match body w with
    | (Ok a, w') => (Ok a, w')
    | (Raise e, w') => handler e w'
    end.

Definition called (c : Call) (p : Page) (w : World) : World :=
  {| page := p; stdout := stdout w; calls := calls w ++ [c] |}.

Definition print (line : string) : M unit := fun w =>
  (Ok tt, {| page := page w; stdout := stdout w ++ [line]; calls := calls w |}).

Fixpoint print_all (lines : list string) : M unit :=
  match lines with
  | [] => mret tt
  | line :: rest => print line;; print_all rest
  end.

Definition raised (r : option string) : Result unit :=
  match r with
  | None => Ok tt
  | Some e => Raise e
  end.

(** [page.goto(url)] *)
Definition page_goto (url : string) : M unit := fun w =>
  let (p', r) := goto (page w) url in
  (raised r, called (CGoto url) p' w).

(** [page.wait_for_load_state(state)] *)
Definition page_wait_for_load_state (state : string) : M unit := fun w =>
  let (p', r) := wait_for_load_state (page w) state in
  (raised r, called (CLoadState state) p' w).

(** [page.wait_for_timeout(ms)] *)
Definition page_wait_for_timeout (ms : Z) : M unit := fun w =>
  let (p', r) := wait_for_timeout (page w) ms in
  (raised r, called (CWait ms) p' w).

(** [page.screenshot(path=path, full_page=True)] *)
Definition page_screenshot (path : string) : M unit := fun w =>
  let (p', r) := screenshot (page w) path in
  (raised r, called (CShot path) p' w).

Definition browser_close : M unit := fun w =>
  (Ok tt, called CClose (page w) w).

(** [locator.count()] *)
Definition count (l : Locator) : M nat := fun w =>
  (Ok (length (resolve (page w) l)), called (CCount l) (page w) w).

(** [locator.click()] and [locator.click(force=True)] *)
Definition click (l : Locator) (force : bool) : M unit := fun w =>
  match target (page w) l with
  | inl e =>
      let (p', r) := click_elem (page w) e force in
      (raised r, called (CClick e force) p' w)
  | inr err => (Raise err, w)
  end.

(** [locator.fill(value)] *)
Definition fill (l : Locator) (value : string) : M unit := fun w =>
  match target (page w) l with
  | inl e =>
      let (p', r) := fill_elem (page w) e value in
      (raised r, called (CFill e value) p' w)
  | inr err => (Raise err, w)
  end.

(** [page.request.get(url)] *)
Definition request_get (url : string) : M Response := fun w =>
  let (p', r) := http_get (page w) url in
  (match r with inl resp => Ok resp | inr err => Raise err end,
   called (CGet url) p' w).

(** The list [console_logs] as the subscription has filled it so far. *)
Definition console_logs : M (list string) := fun w =>
  (Ok (map log_entry (console (page w))), w).

(** [if locator.count() > 0: body] *)
Definition when_present (l : Locator) (body : M unit) : M unit :=
  n ← count l;
  if (0 <? n)%nat then body else mret tt.

End Scripts.

(** ** The selectors and texts of the scripts *)

Definition nl : string := String (ascii_of_nat 10) EmptyString.

Definition has_text (tag text : string) : Locator :=
  Css (tag +:+ ":has-text(" +:+ dq +:+ text +:+ dq +:+ ")").

Definition generate_btn : Locator := has_text "button" "Generate".
Definition continue_btn : Locator := has_text "button" "Continue".
Definition deposit_btn : Locator := has_text "button" "Get Deposit Address".
Definition sent_btn : Locator := has_text "button" "Sent the BTC".
Definition mock_btn : Locator := has_text "button" "Mock".
Definition mint_btn : Locator := has_text "button" "Mint".

Definition amount_input : Locator :=
  Css ("input[type=" +:+ dq +:+ "number" +:+ dq +:+ "]").
Definition checkbox_label : Locator :=
  Css ("label:has(input[type=" +:+ dq +:+ "checkbox" +:+ dq +:+ "])").
Definition checkbox_container : Locator :=
  Css ("div:has(> input[type=" +:+ dq +:+ "checkbox" +:+ dq +:+ "])").

Fixpoint str_repeat (s : string) (n : nat) : string :=
  match n with
  | O => EmptyString
  | S n' => s +:+ str_repeat s n'
  end.

(** [l[-n:]]: the last [n] entries; Python reads [-0] as [0], so [l[-0:]]
    is all of [l]. *)
Definition last_n {A} (n : nat) (l : list A) : list A :=
  match n with
  | O => l
  | S _ => skipn (length l - n) l
  end.

Definition bridge_url : string := "http://localhost:3000/bridge".
Definition wasm_url : string := "http://localhost:3000/circuits/deposit.wasm".
Definition zkey_url : string := "http://localhost:3000/circuits/deposit_final.zkey".
Definition vk_url : string := "http://localhost:3000/circuits/deposit_vk.json".

Section Flows.
Context {B : Browser}.

(** ** test-proof.py: [test_deposit_flow] *)

Definition navigate : M unit :=
  print "1. Navigating to /bridge...";;
  page_goto bridge_url;;
  page_wait_for_load_state "networkidle";;
  page_screenshot "/tmp/bridge-1-initial.png";;
  print "   Screenshot saved: /tmp/bridge-1-initial.png".

(** Lines 29-33. *)
Definition generate_step : M unit :=
  when_present generate_btn
    (click (First generate_btn) false;;
     page_wait_for_timeout 500;;
     print "   Clicked 'Generate' button").

(** Lines 39-43. *)
Definition continue_step : M unit :=
  when_present continue_btn
    (click (First continue_btn) false;;
     page_wait_for_timeout 500;;
     print "   Clicked 'Continue' button").

(** Step 1: the first [try] block. *)
Definition secret_block : M unit :=
  generate_step;;
  page_screenshot "/tmp/bridge-2-secret.png";;
  print "   Screenshot saved: /tmp/bridge-2-secret.png";;
  continue_step.

Definition secret_step : M unit :=
  print (nl +:+ "2. Entering secret note...");;
  try_except secret_block
    (fun e => print ("   Error in secret step: " +:+ e)).

(** The confirmation checkbox: the label, else the container div. *)
Definition confirm_checkbox : M unit :=
  n ← count checkbox_label;
  if (0 <? n)%nat then
    click (First checkbox_label) false;;
    print "   Clicked confirmation checkbox label"
  else
    when_present checkbox_container
      (click (First checkbox_container) true;;
       print "   Clicked checkbox container").

(** Lines 52-55. *)
Definition amount_fill_step : M unit :=
  when_present amount_input
    (fill (First amount_input) "10000";;
     print "   Entered amount: 10000").

(** Lines 75-80. *)
Definition deposit_step : M unit :=
  when_present deposit_btn
    (click (First deposit_btn) false;;
     print "   Clicked 'Get Deposit Address' button";;
     print "   Waiting for Poseidon init and address generation...";;
     page_wait_for_timeout 5000).

(** Step 2: the second [try] block. *)
Definition amount_block : M unit :=
  amount_fill_step;;
  page_wait_for_timeout 500;;
  page_screenshot "/tmp/bridge-4-amount-entered.png";;
  confirm_checkbox;;
  page_wait_for_timeout 300;;
  deposit_step.

Definition amount_step : M unit :=
  print (nl +:+ "3. Entering amount...");;
  page_screenshot "/tmp/bridge-3-amount-page.png";;
  try_except amount_block
    (fun e => print ("   Error in amount step: " +:+ e));;
  page_screenshot "/tmp/bridge-6-after-deposit.png";;
  print "   Screenshot saved: /tmp/bridge-6-after-deposit.png".

(** Step 4: the third [try] block. *)
Definition sent_block : M unit :=
  when_present sent_btn
    (click (First sent_btn) false;;
     print "   Clicked 'I've Sent the BTC' button";;
     page_wait_for_timeout 3000).

Definition sent_step : M unit :=
  print (nl +:+ "4. Clicking 'I've Sent the BTC' button...");;
  try_except sent_block
    (fun e => print ("   Error clicking sent button: " +:+ e));;
  page_screenshot "/tmp/bridge-7-waiting-confirm.png";;
  print "   Screenshot saved: /tmp/bridge-7-waiting-confirm.png".

(** Lines 105-109. *)
Definition mock_step : M unit :=
  when_present mock_btn
    (click (First mock_btn) false;;
     print "   Clicked mock confirmation button";;
     page_wait_for_timeout 3000).

(** Lines 112-117. *)
Definition mint_step : M unit :=
  when_present mint_btn
    (print "   Found 'Mint' button - clicking...";;
     click (First mint_btn) false;;
     print "   Clicked 'Mint' button - waiting for ZK proof generation...";;
     page_wait_for_timeout 10000).

(** Step 5: the fourth [try] block. *)
Definition confirmation_block : M unit :=
  mock_step;;
  mint_step.

Definition confirmation_step : M unit :=
  print (nl +:+ "5. Looking for confirmation options...");;
  try_except confirmation_block
    (fun e => print ("   Error in confirmation step: " +:+ e));;
  page_screenshot "/tmp/bridge-8-final.png";;
  print "   Screenshot saved: /tmp/bridge-8-final.png";;
  page_wait_for_timeout 2000;;
  page_screenshot "/tmp/bridge-5-waiting.png";;
  print "   Screenshot saved: /tmp/bridge-5-waiting.png".

Definition completed_line : string := nl +:+ "✓ Test completed".

(** The evidence output and the end of the run. *)
Definition report : M unit :=
  print (nl +:+ str_repeat "=" 50);;
  print "CONSOLE LOGS (ZK/Proof related):";;
  print (str_repeat "=" 50);;
  logs ← console_logs;
  print_all (zk_logs logs);;
  (match zk_logs logs with
   | [] => print "(No ZK-related logs captured)"
   | _ :: _ => mret tt
   end);;
  print (nl +:+ str_repeat "=" 50);;
  print "ALL CONSOLE LOGS (last 30):";;
  print (str_repeat "=" 50);;
  logs ← console_logs;
  print_all (last_n 30 logs);;
  browser_close;;
  print completed_line.

Definition test_deposit_flow : M unit :=
  navigate;;
  secret_step;;
  amount_step;;
  sent_step;;
  confirmation_step;;
  report.

(** ** test-zk-proof.py: [test_zk_setup] *)

Definition yes_no (b : bool) : string := if b then "YES" else "NO".

(** The lines printed from the two checks. *)
Definition verification_summary (wasm_status zkey_status vk_status : Z)
    (logs : list string) : list string :=
  [ "  Circuit files accessible: " +:+
      yes_no (circuit_files_ok wasm_status zkey_status vk_status);
    "  Poseidon note creation: " +:+ yes_no (poseidon_ok logs) ] ++
  (if overall_ok wasm_status zkey_status vk_status logs then
     [ nl +:+ "  ZK integration is properly set up!";
       "  Proof generation will work when deposit is confirmed." ]
   else
     [ nl +:+ "  Some components are missing." ]).

Definition probe_files : M (Response * Response * Response) :=
  print "1. Testing circuit files accessibility...";;
  wasm_response ← request_get wasm_url;
  print (probe_line "deposit.wasm" (status wasm_response) (headers wasm_response));;
  zkey_response ← request_get zkey_url;
  print (probe_line "deposit_final.zkey" (status zkey_response) (headers zkey_response));;
  vk_response ← request_get vk_url;
  print (probe_line "deposit_vk.json" (status vk_response) (headers vk_response));;
  mret (wasm_response, zkey_response, vk_response).

(** Lines 35-39. *)
Definition setup_generate_step : M unit :=
  when_present generate_btn
    (click (First generate_btn) false;;
     page_wait_for_timeout 500;;
     print "   Generated secret note").

(** Lines 41-45. *)
Definition setup_continue_step : M unit :=
  when_present continue_btn
    (click (First continue_btn) false;;
     page_wait_for_timeout 500;;
     print "   Continued to amount step").

(** Lines 48-51. *)
Definition setup_amount_step : M unit :=
  when_present amount_input
    (fill (First amount_input) "10000";;
     print "   Entered amount: 10000").

(** Lines 54-57. *)
Definition setup_checkbox_step : M unit :=
  when_present checkbox_label
    (click (First checkbox_label) false;;
     print "   Checked confirmation checkbox").

(** Lines 62-67. *)
Definition setup_deposit_step : M unit :=
  when_present deposit_btn
    (click (First deposit_btn) false;;
     print "   Clicked 'Get Deposit Address'";;
     print "   Waiting for Poseidon initialization and note creation...";;
     page_wait_for_timeout 5000).

Definition create_note : M unit :=
  print (nl +:+ "2. Testing Poseidon note creation via UI...");;
  page_goto bridge_url;;
  page_wait_for_load_state "networkidle";;
  setup_generate_step;;
  setup_continue_step;;
  setup_amount_step;;
  setup_checkbox_step;;
  page_wait_for_timeout 500;;
  setup_deposit_step.

Definition summary (wasm_status zkey_status vk_status : Z) : M unit :=
  print (nl +:+ "3. Checking console logs for ZK-related activity...");;
  logs ← console_logs;
  print (nl +:+ str_repeat "=" 60);;
  print "POSEIDON/COMMITMENT LOGS:";;
  print (str_repeat "=" 60);;
  print_all (poseidon_logs logs);;
  (match zk_setup_logs logs with
   | [] => mret tt
   | _ :: _ =>
       print (nl +:+ str_repeat "=" 60);;
       print "ZK PROOF LOGS:";;
       print (str_repeat "=" 60);;
       print_all (zk_setup_logs logs)
   end);;
  print (nl +:+ str_repeat "=" 60);;
  print "VERIFICATION SUMMARY:";;
  print (str_repeat "=" 60);;
  print_all (verification_summary wasm_status zkey_status vk_status logs);;
  browser_close;;
  print (nl +:+ "Test completed.").

Definition test_zk_setup : M unit :=
  '(wasm_response, zkey_response, vk_response) ← probe_files;
  create_note;;
  summary (status wasm_response) (status zkey_response) (status vk_response).

End Flows.

(** ** A stub browser, to run the scripts on concrete pages *)

Fixpoint selector_of (l : Locator) : string :=
  match l with
  | Css selector => selector
  | First l' => selector_of l'
  end.

Fixpoint assoc {V} (key : string) (table : list (string * V)) : option V :=
  match table with
  | [] => None
  | (k, v) :: rest => if String.eqb key k then Some v else assoc key rest
  end.

(** A stub page is described by how many elements each selector matches,
    which selectors have elements that refuse actions, what a successful
    action prints on the console, and which URLs are served. *)
Record Stub := {
  present : list (string * nat);
  broken : list string;
  chatter : list (string * list ConsoleMessage);
  served : list (string * Response)
}.

Definition stub_act (s : Stub) (p : list ConsoleMessage) (e : string * nat)
    : list ConsoleMessage * option string :=
  if existsb (String.eqb (fst e)) (broken s)
  then (p, Some "Timeout 30000ms exceeded.")
  else (p ++ default [] (assoc (fst e) (chatter s)), None).

Definition stub_browser (s : Stub) : Browser := {|
  Page := list ConsoleMessage;
  Elem := string * nat;
  query := fun _ selector =>
    map (pair selector) (seq 0 (default 0%nat (assoc selector (present s))));
  goto := fun p _ => (p, None);
  wait_for_load_state := fun p _ => (p, None);
  wait_for_timeout := fun p _ => (p, None);
  screenshot := fun p _ => (p, None);
  click_elem := fun p e _ => stub_act s p e;
  fill_elem := fun p e _ => stub_act s p e;
  http_get := fun p url =>
    (p, match assoc url (served s) with
        | Some r => inl r
        | None => inr "connect ECONNREFUSED"
        end);
  console := fun p => p
|}.

Definition start {B : Browser} (p : Page) : World :=
  {| page := p; stdout := []; calls := [] |}.

(** The [i]-th element a selector matches on a stub page. *)
Definition stub_elem (s : Stub) (selector : string) (i : nat)
    : @Elem (stub_browser s) :=
  (selector, i).

(** A fresh page: nothing on the console yet. *)
Definition blank : list ConsoleMessage := [].

Definition stub_start (s : Stub) : @World (stub_browser s) :=
  @start (stub_browser s) blank.

Definition circuit_file (content_length : string) : Response :=
  {| status := 200; headers := {[ "content-length" := content_length ]} |}.

Definition all_served : list (string * Response) :=
  [ (wasm_url, circuit_file "1234");
    (zkey_url, circuit_file "56789");
    (vk_url, circuit_file "321") ].

(** Every control is there once, [Generate] twice; clicking
    [Get Deposit Address] makes the application log the note. *)
Definition healthy : Stub := {|
  present :=
    [ (selector_of generate_btn, 2%nat); (selector_of continue_btn, 1%nat);
      (selector_of amount_input, 1%nat); (selector_of checkbox_label, 1%nat);
      (selector_of deposit_btn, 1%nat); (selector_of sent_btn, 1%nat);
      (selector_of mint_btn, 1%nat) ];
  broken := [];
  chatter :=
    [ (selector_of deposit_btn,
       [ {| msg_type := "log"; msg_text := "Poseidon note created: 0x1f" |} ]) ];
  served := all_served
|}.

(** As [healthy], but the [Generate] buttons refuse the click. *)
Definition stuck_generate : Stub := {|
  present := present healthy;
  broken := [ selector_of generate_btn ];
  chatter := chatter healthy;
  served := all_served
|}.

(** No label around the checkbox, only a container div. *)
Definition no_label : Stub := {|
  present :=
    [ (selector_of amount_input, 1%nat); (selector_of checkbox_container, 3%nat);
      (selector_of deposit_btn, 1%nat) ];
  broken := [];
  chatter := [];
  served := all_served
|}.

(** A page without any of the controls. *)
Definition bare : Stub := {|
  present := [];
  broken := [];
  chatter := [];
  served := all_served
|}.


(** ** What a run leaves behind *)

(** The lines [report] prints for a console buffer. *)
Definition report_lines (logs : list string) : list string :=
  [ nl +:+ str_repeat "=" 50; "CONSOLE LOGS (ZK/Proof related):";
    str_repeat "=" 50 ] ++
  zk_logs logs ++
  (match zk_logs logs with
   | [] => [ "(No ZK-related logs captured)" ]
   | _ :: _ => []
   end) ++
  [ nl +:+ str_repeat "=" 50; "ALL CONSOLE LOGS (last 30):";
    str_repeat "=" 50 ] ++
  last_n 30 logs ++
  [ completed_line ].

Section Observations.
Context {B : Browser}.

(** [w'] comes after [w]: output and browser calls were only added. *)
Definition extends (w w' : World) : Prop :=
  (exists out, stdout w' = stdout w ++ out) /\
  (exists cs, calls w' = calls w ++ cs).

(** A piece of script that only adds output and calls, however it ends. *)
Definition grows {A} (m : M A) : Prop :=
  forall w, extends w (snd (m w)).

(** A piece of script that never raises. *)
Definition completes {A} (m : M A) : Prop :=
  forall w, exists a w', m w = (Ok a, w') /\ extends w w'.


(** A browser on which navigation, waits and screenshots do not raise. *)
Definition steady : Prop :=
  (forall p url, snd (goto p url) = None) /\
  (forall p state, snd (wait_for_load_state p state) = None) /\
  (forall p ms, snd (wait_for_timeout p ms) = None) /\
  (forall p path, snd (screenshot p path) = None).

(** What a step does to the element it finds. *)
Inductive Action :=
  | Clicks (force : bool)
  | Fills (value : string).

Definition action_call (a : Action) (e : Elem) : Call :=
  match a with
  | Clicks force => CClick e force
  | Fills value => CFill e value
  end.

Definition action_outcome (a : Action) (p : Page) (e : Elem)
    : Page * option string :=
  match a with
  | Clicks force => click_elem p e force
  | Fills value => fill_elem p e value
  end.

(** On a page where [l] matches several elements, the piece of script
    counts [l] and then performs [a] on the first of them; if that raises,
    the piece raises the same exception. *)
Definition acts_on_first (l : Locator) (a : Action) (step : M unit) : Prop :=
  forall w e e' rest,
    resolve (page w) l = e :: e' :: rest ->
    (exists cs,
       calls (snd (step w)) = calls w ++ CCount l :: action_call a e :: cs) /\
    (forall err, snd (action_outcome a (page w) e) = Some err ->
                 fst (step w) = Raise err).


End Observations.

Section Envelopes.
Context {B : Browser}.

(** Every browser call the piece of script makes satisfies [P], however the
    piece ends. *)
Definition confined {A} (P : Call -> Prop) (m : M A) : Prop :=
  forall w, exists cs, calls (snd (m w)) = calls w ++ cs /\ Forall P cs.

(** The browser calls found in test-zk-proof.py. *)
Definition zk_setup_call (c : Call) : Prop :=
  match c with
  | CGet url => In url [ wasm_url; zkey_url; vk_url ]
  | CGoto url => url = bridge_url
  | CLoadState state => state = "networkidle"
  | CCount l =>
      In l [ generate_btn; continue_btn; amount_input; checkbox_label;
             deposit_btn ]
  | CClick _ force => force = false
  | CFill _ value => value = "10000"
  | CWait ms => In ms [ 500%Z; 5000%Z ]
  | CShot _ => False
  | CClose => True
  end.

(** The browser calls found in test-proof.py. *)
Definition deposit_flow_call (c : Call) : Prop :=
  match c with
  | CGet _ => False
  | CGoto url => url = bridge_url
  | CLoadState state => state = "networkidle"
  | CCount l =>
      In l [ generate_btn; continue_btn; amount_input; checkbox_label;
             checkbox_container; deposit_btn; sent_btn; mock_btn; mint_btn ]
  | CClick _ _ => True
  | CFill _ value => value = "10000"
  | CWait ms => In ms [ 500%Z; 300%Z; 5000%Z; 3000%Z; 10000%Z; 2000%Z ]
  | CShot path => String.prefix "/tmp/bridge-" path = true
  | CClose => True
  end.


(** A browser whose pages never hold any of the controls. *)
Definition no_controls : Prop :=
  forall p selector, query p selector = [].

(** A browser on which the probe of each circuit file gets an answer. *)
Definition probes_answer : Prop :=
  forall p url, In url [ wasm_url; zkey_url; vk_url ] ->
    exists r, snd (http_get p url) = inl r.

(** A browser on which nothing raises: no navigation, wait or screenshot,
    no action and no probe. *)
Definition calm : Prop :=
  steady /\
  (forall p e force, snd (click_elem p e force) = None) /\
  (forall p e value, snd (fill_elem p e value) = None) /\
  probes_answer.

(** A piece of script that ends normally after making exactly the calls
    [cs]. *)
Definition makes {A} (cs : list Call) (m : M A) : Prop :=
  forall w, exists a w', m w = (Ok a, w') /\ calls w' = calls w ++ cs.

End Envelopes.

(** The lines [summary] prints for three statuses and a console buffer. *)
Definition summary_lines (wasm_status zkey_status vk_status : Z)
    (logs : list string) : list string :=
  [ nl +:+ "3. Checking console logs for ZK-related activity...";
    nl +:+ str_repeat "=" 60; "POSEIDON/COMMITMENT LOGS:";
    str_repeat "=" 60 ] ++
  poseidon_logs logs ++
  (match zk_setup_logs logs with
   | [] => []
   | _ :: _ =>
       [ nl +:+ str_repeat "=" 60; "ZK PROOF LOGS:"; str_repeat "=" 60 ] ++
       zk_setup_logs logs
   end) ++
  [ nl +:+ str_repeat "=" 60; "VERIFICATION SUMMARY:"; str_repeat "=" 60 ] ++
  verification_summary wasm_status zkey_status vk_status logs ++
  [ nl +:+ "Test completed." ].

(** The calls [test_deposit_flow] makes on a page without controls. *)
Definition idle_deposit_calls {B : Browser} : list Call :=
  [ CGoto bridge_url; CLoadState "networkidle";
    CShot "/tmp/bridge-1-initial.png";
    CCount generate_btn; CShot "/tmp/bridge-2-secret.png";
    CCount continue_btn;
    CShot "/tmp/bridge-3-amount-page.png";
    CCount amount_input; CWait 500; CShot "/tmp/bridge-4-amount-entered.png";
    CCount checkbox_label; CCount checkbox_container; CWait 300;
    CCount deposit_btn;
    CShot "/tmp/bridge-6-after-deposit.png";
    CCount sent_btn;
    CShot "/tmp/bridge-7-waiting-confirm.png";
    CCount mock_btn; CCount mint_btn;
    CShot "/tmp/bridge-8-final.png"; CWait 2000;
    CShot "/tmp/bridge-5-waiting.png";
    CClose ].

(** The calls [test_zk_setup] makes on a page without controls. *)
Definition idle_setup_calls {B : Browser} : list Call :=
  [ CGet wasm_url; CGet zkey_url; CGet vk_url;
    CGoto bridge_url; CLoadState "networkidle";
    CCount generate_btn; CCount continue_btn; CCount amount_input;
    CCount checkbox_label; CWait 500; CCount deposit_btn;
    CClose ].

(** The browser of a machine where nothing listens on port 3000: the
    navigation and every probe are refused. *)
Definition offline_browser : Browser := {|
  Page := list ConsoleMessage;
  Elem := string * nat;
  query := fun _ _ => [];
  goto := fun p _ => (p, Some "net::ERR_CONNECTION_REFUSED");
  wait_for_load_state := fun p _ => (p, None);
  wait_for_timeout := fun p _ => (p, None);
  screenshot := fun p _ => (p, None);
  click_elem := fun p _ _ => (p, None);
  fill_elem := fun p _ _ => (p, None);
  http_get := fun p _ => (p, inr "connect ECONNREFUSED");
  console := fun p => p
|}.

(** A browser that cannot write its screenshots. *)
Definition full_disk_browser : Browser := {|
  Page := list ConsoleMessage;
  Elem := string * nat;
  query := fun _ _ => [];
  goto := fun p _ => (p, None);
  wait_for_load_state := fun p _ => (p, None);
  wait_for_timeout := fun p _ => (p, None);
  screenshot := fun p _ => (p, Some "ENOSPC: no space left on device");
  click_elem := fun p _ _ => (p, None);
  fill_elem := fun p _ _ => (p, None);
  http_get := fun p _ => (p, inr "connect ECONNREFUSED");
  console := fun p => p
|}.

(** A browser with no controls where every probe answers 404. *)
Definition not_deployed : Stub := {|
  present := [];
  broken := [];
  chatter := [];
  served :=
    [ (wasm_url, {| status := 404; headers := ∅ |});
      (zkey_url, {| status := 404; headers := ∅ |});
      (vk_url, {| status := 404; headers := ∅ |}) ]
|}.

(** * Properties *)

(** ** Strings *)

#[local] Arguments String.append !s1 s2 : simpl nomatch.

Lemma append_assoc (a b c : string) : (a +:+ b) +:+ c = a +:+ (b +:+ c).
Proof. induction a as [|x a IH]; simpl; [reflexivity | now rewrite IH]. Qed.

Lemma prefix_spec (sub s : string) :
  String.prefix sub s = true <-> exists post, s = sub +:+ post.
Proof.
  revert s; induction sub as [|c sub IH]; intros s.
  - split; [intros _; now exists s | intros _; now destruct s].
  - destruct s as [|d s]; simpl.
    + split; [discriminate | intros [post H]; discriminate].
    + destruct (ascii_dec c d) as [->|Hne].
      * rewrite IH. split; intros [post H]; exists post; congruence.
      * split; [discriminate | intros [post H]; congruence].
Qed.

Lemma str_in_nil (sub : string) :
  str_in sub EmptyString = true <-> sub = EmptyString.
Proof. destruct sub; simpl; split; congruence. Qed.

Lemma str_in_cons (sub : string) (d : ascii) (s : string) :
  str_in sub (String d s) = true <->
  String.prefix sub (String d s) = true \/ str_in sub s = true.
Proof. simpl. apply orb_true_iff. Qed.

Lemma str_in_spec (sub s : string) :
  str_in sub s = true <-> substring_of sub s.
Proof.
  unfold substring_of.
  induction s as [|d s IH].
  - rewrite str_in_nil. split.
    + intros ->. now exists EmptyString, EmptyString.
    + intros [[|x pre] [post H]]; simpl in H; [| discriminate].
      destruct sub; [reflexivity | discriminate].
  - rewrite str_in_cons, IH, prefix_spec. split.
    + intros [[post H] | (pre & post & H)].
      * now exists EmptyString, post.
      * exists (String d pre), post. simpl. now rewrite H.
    + intros [[|x pre] [post H]]; simpl in H.
      * left. now exists post.
      * right. exists pre, post. congruence.
Qed.

Lemma lower_app (a b : string) : lower (a +:+ b) = lower a +:+ lower b.
Proof. induction a as [|x a IH]; simpl; [reflexivity | now rewrite IH]. Qed.

Lemma substring_of_lower (sub s : string) :
  substring_of sub s -> substring_of (lower sub) (lower s).
Proof.
  intros (pre & post & ->). exists (lower pre), (lower post).
  now rewrite !lower_app.
Qed.

Lemma substring_of_prefix (a b s : string) :
  substring_of (a +:+ b) s -> substring_of a s.
Proof.
  intros (pre & post & ->). exists pre, (b +:+ post).
  now rewrite append_assoc.
Qed.

Lemma case_permutation_lower (kw kw' : string) :
  case_permutation kw kw' -> lower kw = lower kw'.
Proof. induction 1; simpl; congruence. Qed.

(** A line with the marker phrase has the keyword [Poseidon] in it. *)
Lemma marker_has_keyword (log : string) :
  str_in marker log = true -> str_in "Poseidon" log = true.
Proof.
  rewrite !str_in_spec. apply (substring_of_prefix "Poseidon" " note created").
Qed.

(** ** Lists *)

Lemma filter_sublist {A} (f : A -> bool) (l : list A) :
  List.filter f l `sublist_of` l.
Proof.
  induction l as [|x l IH]; simpl; [constructor |].
  destruct (f x); now constructor.
Qed.

Lemma existsb_filter_implied {A} (f g : A -> bool) (l : list A) :
  (forall x, f x = true -> g x = true) ->
  existsb f (List.filter g l) = existsb f l.
Proof.
  intros Himp. induction l as [|x l IH]; simpl; [reflexivity |].
  destruct (g x) eqn:Hg; simpl; rewrite IH; [reflexivity |].
  destruct (f x) eqn:Hf; [| reflexivity].
  apply Himp in Hf. congruence.
Qed.

Lemma existsb_In {A} (f : A -> bool) (l : list A) :
  existsb f l = true <-> exists x, In x l /\ f x = true.
Proof. apply existsb_exists. Qed.

Lemma poseidon_ok_unfiltered (logs : list string) :
  poseidon_ok logs = existsb (str_in marker) logs.
Proof.
  unfold poseidon_ok, poseidon_logs.
  apply existsb_filter_implied. intros log H.
  now rewrite (marker_has_keyword log H).
Qed.

Lemma poseidon_ok_spec (logs : list string) :
  poseidon_ok logs = true <->
  exists log, In log logs /\ substring_of marker log.
Proof.
  rewrite poseidon_ok_unfiltered, existsb_In.
  split; intros (log & Hin & H); exists log; split; auto;
    now apply str_in_spec.
Qed.

Lemma status_ok_spec (s : Z) : status_ok s = true <-> s = 200%Z.
Proof. unfold status_ok. apply Z.eqb_eq. Qed.

Lemma circuit_files_ok_spec (s1 s2 s3 : Z) :
  circuit_files_ok s1 s2 s3 = true <-> s1 = 200%Z /\ s2 = 200%Z /\ s3 = 200%Z.
Proof.
  unfold circuit_files_ok. rewrite !andb_true_iff, !status_ok_spec. tauto.
Qed.

(** ** The verdict of test-zk-proof.py *)

(** C1: the condition of the final [if] of [test_zk_setup] holds exactly when
    the three probed files all answered 200 and some entry of the console
    buffer contains the phrase [Poseidon note created]. *)
Theorem C1_overall_ok_iff (wasm_status zkey_status vk_status : Z)
    (logs : list string) :
  overall_ok wasm_status zkey_status vk_status logs = true <->
  (wasm_status = 200%Z /\ zkey_status = 200%Z /\ vk_status = 200%Z) /\
  exists log, In log logs /\ substring_of "Poseidon note created" log.
Proof.
  unfold overall_ok.
  rewrite andb_true_iff, circuit_files_ok_spec, poseidon_ok_spec.
  reflexivity.
Qed.

(** C2, as claimed, fails: a buffer whose only entry spells the phrase in
    lower case contains the marker under case-insensitive comparison, and the
    check answers false. *)
Lemma C2_case_insensitive_counterexample :
  ~ (poseidon_ok [ "[log] poseidon note created" ] = true <->
     exists log, In log [ "[log] poseidon note created" ] /\
                 substring_of (lower marker) (lower log)).
Proof.
  intros [_ H].
  assert (Hno : poseidon_ok [ "[log] poseidon note created" ] = false)
    by reflexivity.
  rewrite H in Hno; [discriminate |].
  exists "[log] poseidon note created". split; [now left |].
  now exists "[log] ", EmptyString.
Qed.

(** C2, amended: the check answers true exactly when some buffered entry
    contains the marker phrase as written (the comparison is case-sensitive),
    and false on an empty buffer. *)
Theorem C2_signal_case_sensitive (logs : list string) :
  (poseidon_ok logs = true <->
   exists log, In log logs /\ substring_of marker log) /\
  poseidon_ok [] = false.
Proof. split; [apply poseidon_ok_spec | reflexivity]. Qed.

(** ** The keyword filters *)

Lemma filter_ext_all {A} (f g : A -> bool) (l : list A) :
  (forall x, f x = g x) -> List.filter f l = List.filter g l.
Proof.
  intros Hfg. induction l as [|x l IH]; simpl; [reflexivity |].
  now rewrite Hfg, IH.
Qed.

Lemma existsb_replace {A} (f : A -> bool) (l1 l2 : list A) (x y : A) :
  f x = f y -> existsb f (l1 ++ x :: l2) = existsb f (l1 ++ y :: l2).
Proof. intros H. rewrite !existsb_app. simpl. now rewrite H. Qed.

Lemma zk_setup_logs_correlate (logs : list string) :
  zk_setup_logs logs = correlate zk_setup_keywords logs.
Proof. reflexivity. Qed.

(** C3, as claimed, fails on test-zk-proof.py: its Poseidon filter drops a
    line that has the keyword in another case, which the case-insensitive
    filter keeps; and its zk filter, given the keyword [ZK] for [zk], selects
    something else. *)
Lemma C3_case_counterexample :
  poseidon_logs [ "[log] poseidon hasher ready" ] = [] /\
  correlate [ "Poseidon"; "commitment" ] [ "[log] poseidon hasher ready" ]
    = [ "[log] poseidon hasher ready" ] /\
  case_permutation "zk" "ZK" /\
  zk_filter [ "zk"; "proof"; "snark"; "circom" ] [ "[log] zk ready" ]
    <> zk_filter [ "ZK"; "proof"; "snark"; "circom" ] [ "[log] zk ready" ].
Proof.
  split; [reflexivity |]. split; [reflexivity |]. split.
  - repeat (constructor; [reflexivity |]). constructor.
  - discriminate.
Qed.

(** C3, amended: each of the three filters returns an order-preserving
    subsequence of the buffer; the filter of test-proof.py matches without
    regard to case, so a keyword may be replaced by a case permutation of
    itself; the zk filter of test-zk-proof.py, with the lower-case keywords
    it is given, is that same filter. *)
Theorem C3_filters (kws1 kws2 : list string) (kw kw' : string)
    (logs : list string) (Hcase : case_permutation kw kw') :
  correlate (kws1 ++ kw :: kws2) logs `sublist_of` logs /\
  poseidon_logs logs `sublist_of` logs /\
  zk_filter (kws1 ++ kw :: kws2) logs `sublist_of` logs /\
  correlate (kws1 ++ kw :: kws2) logs = correlate (kws1 ++ kw' :: kws2) logs /\
  zk_setup_logs logs = correlate zk_setup_keywords logs.
Proof.
  split; [apply filter_sublist |].
  split; [apply filter_sublist |].
  split; [apply filter_sublist |].
  split; [| apply zk_setup_logs_correlate].
  unfold correlate. apply filter_ext_all. intros log.
  apply existsb_replace. now rewrite (case_permutation_lower _ _ Hcase).
Qed.

Lemma C3_filters_witness :
  case_permutation "Poseidon" "pOSEIDON" /\
  correlate ([ "Deposit" ] ++ "Poseidon" :: [ "proof" ])
    [ "[log] a"; "[log] POSEIDON up"; "[warn] proof" ]
  = correlate ([ "Deposit" ] ++ "pOSEIDON" :: [ "proof" ])
    [ "[log] a"; "[log] POSEIDON up"; "[warn] proof" ].
Proof.
  assert (H : case_permutation "Poseidon" "pOSEIDON")
    by (repeat (constructor; [reflexivity |]); constructor).
  split; [exact H |].
  apply (C3_filters [ "Deposit" ] [ "proof" ] "Poseidon" "pOSEIDON" _ H).
Defined.

(** C10: looking for the marker phrase in the Poseidon/commitment subset is
    the same as looking for it in the whole buffer, since a line with the
    phrase has the keyword [Poseidon] and so passes the filter. *)
Theorem C10_marker_check_ignores_filter (logs : list string) :
  (forall log, substring_of marker log -> In log logs ->
               In log (poseidon_logs logs)) /\
  ((exists log, In log (poseidon_logs logs) /\ substring_of marker log) <->
   (exists log, In log logs /\ substring_of marker log)) /\
  existsb (str_in marker) (poseidon_logs logs) = existsb (str_in marker) logs.
Proof.
  assert (Hkeep : forall log, substring_of marker log -> In log logs ->
                              In log (poseidon_logs logs)).
  { intros log Hsub Hin. unfold poseidon_logs. apply filter_In. split; [exact Hin |].
    apply str_in_spec in Hsub. now rewrite (marker_has_keyword log Hsub). }
  split; [exact Hkeep |]. split.
  - split; intros (log & Hin & Hsub); exists log; split; auto.
    unfold poseidon_logs in Hin. now apply filter_In in Hin.
  - apply (poseidon_ok_unfiltered logs).
Qed.

(** ** Resource probes *)

(** C6: the test applied to each probed file holds exactly when its status
    is 200, a 404 fails it, and the aggregate holds exactly when the test
    holds of all three files. *)
Theorem C6_ok_iff_status_200 (s wasm_status zkey_status vk_status : Z) :
  (status_ok s = true <-> s = 200%Z) /\
  status_ok 404 = false /\
  (circuit_files_ok wasm_status zkey_status vk_status = true <->
   status_ok wasm_status = true /\ status_ok zkey_status = true /\
   status_ok vk_status = true) /\
  circuit_files_ok 404 zkey_status vk_status = false /\
  circuit_files_ok wasm_status 404 vk_status = false /\
  circuit_files_ok wasm_status zkey_status 404 = false.
Proof.
  split; [apply status_ok_spec |]. split; [reflexivity |]. split.
  - unfold circuit_files_ok. rewrite !andb_true_iff. tauto.
  - unfold circuit_files_ok. change (status_ok 404) with false.
    split; [reflexivity |].
    split; [destruct (status_ok wasm_status); reflexivity |].
    destruct (status_ok wasm_status), (status_ok zkey_status); reflexivity.
Qed.

(** C7, as claimed, fails: the script reports the header as the string it
    is, never as the integer 1234, and reports a missing header as the
    string [unknown], not as an absent value. *)
Lemma C7_content_length_counterexample :
  ~ (forall headers : gmap string string,
       (headers !! "content-length" = Some "1234" ->
        content_length_reported headers = PyInt 1234) /\
       (headers !! "content-length" = None ->
        content_length_reported headers = PyNone)).
Proof.
  intros H. destruct (H ∅) as [_ Hnone].
  specialize (Hnone (lookup_empty _)). discriminate.
Qed.

(** C7, amended: the size reported for a probed file is the value of the
    [content-length] header as a string, unparsed (the header [1234] is
    printed as [1234 bytes]), and a missing header is reported as the string
    [unknown]. *)
Theorem C7_content_length_raw (name : string) (status : Z)
    (headers : gmap string string) :
  (forall v, headers !! "content-length" = Some v ->
     content_length_reported headers = PyStr v /\
     probe_line name status headers =
       "   " +:+ name +:+ ": " +:+ str_of_int status +:+ " (" +:+ v +:+ " bytes)") /\
  (headers !! "content-length" = None ->
     content_length_reported headers = PyStr "unknown" /\
     probe_line name status headers =
       "   " +:+ name +:+ ": " +:+ str_of_int status +:+ " (unknown bytes)").
Proof.
  unfold content_length_reported, probe_line, content_length_field.
  split; [intros v H | intros H]; rewrite H; split; reflexivity.
Qed.

Lemma C7_content_length_raw_witness :
  content_length_reported {[ "content-length" := "1234" ]} = PyStr "1234" /\
  probe_line "deposit.wasm" 200 {[ "content-length" := "1234" ]}
    = "   deposit.wasm: 200 (1234 bytes)" /\
  content_length_reported ∅ = PyStr "unknown" /\
  probe_line "deposit.wasm" 404 ∅ = "   deposit.wasm: 404 (unknown bytes)".
Proof.
  pose proof (C7_content_length_raw "deposit.wasm" 200
                {[ "content-length" := "1234" ]}) as [Hsome _].
  pose proof (C7_content_length_raw "deposit.wasm" 404 ∅) as [_ Hnone].
  destruct (Hsome "1234" eq_refl) as [H1 H2].
  destruct (Hnone eq_refl) as [H3 H4].
  split; [exact H1 |]. split; [exact H2 |]. split; [exact H3 | exact H4].
Defined.

(** ** Running the scripts *)

Section Runs.
Context {B : Browser}.

Lemma extends_refl (w : World) : extends w w.
Proof. split; exists []; now rewrite app_nil_r. Qed.

Lemma extends_trans (w1 w2 w3 : World) :
  extends w1 w2 -> extends w2 w3 -> extends w1 w3.
Proof.
  intros [[o1 Ho1] [c1 Hc1]] [[o2 Ho2] [c2 Hc2]]. split.
  - exists (o1 ++ o2). now rewrite Ho2, Ho1, app_assoc.
  - exists (c1 ++ c2). now rewrite Hc2, Hc1, app_assoc.
Qed.

Lemma extends_called (c : Call) (p : Page) (w : World) :
  extends w (called c p w).
Proof. split; [exists []; simpl; now rewrite app_nil_r | now exists [c]]. Qed.

Lemma extends_In (c : Call) (w w' : World) :
  extends w w' -> In c (calls w) -> In c (calls w').
Proof. intros [_ [cs ->]] H. apply in_or_app. now left. Qed.

(** *** The primitives *)

Lemma completes_grows {A} (m : M A) : completes m -> grows m.
Proof. intros H w. destruct (H w) as (a & w' & -> & Hext). exact Hext. Qed.

Lemma completes_ret {A} (a : A) : completes (mret a : M A).
Proof. intros w. exists a, w. split; [reflexivity | apply extends_refl]. Qed.

Lemma completes_print (line : string) : completes (print line).
Proof.
  intros w. eexists tt, _. split; [reflexivity |].
  split; [now exists [line] | exists []; simpl; now rewrite app_nil_r].
Qed.

Lemma grows_goto (url : string) : grows (page_goto url).
Proof.
  intros w. unfold page_goto. destruct (goto (page w) url).
  apply extends_called.
Qed.

Lemma grows_load_state (state : string) : grows (page_wait_for_load_state state).
Proof.
  intros w. unfold page_wait_for_load_state.
  destruct (wait_for_load_state (page w) state). apply extends_called.
Qed.

Lemma grows_timeout (ms : Z) : grows (page_wait_for_timeout ms).
Proof.
  intros w. unfold page_wait_for_timeout.
  destruct (wait_for_timeout (page w) ms). apply extends_called.
Qed.

Lemma grows_screenshot (path : string) : grows (page_screenshot path).
Proof.
  intros w. unfold page_screenshot. destruct (screenshot (page w) path).
  apply extends_called.
Qed.

(** On a steady browser navigation, waits and screenshots end normally. *)
Lemma completes_goto (url : string) : steady -> completes (page_goto url).
Proof.
  intros (H & _) w. unfold page_goto. specialize (H (page w) url).
  destruct (goto (page w) url) as [p' r]. simpl in H. subst r.
  eexists tt, _. split; [reflexivity | apply extends_called].
Qed.

Lemma completes_load_state (state : string) :
  steady -> completes (page_wait_for_load_state state).
Proof.
  intros (_ & H & _) w. unfold page_wait_for_load_state.
  specialize (H (page w) state).
  destruct (wait_for_load_state (page w) state) as [p' r]. simpl in H. subst r.
  eexists tt, _. split; [reflexivity | apply extends_called].
Qed.

Lemma completes_timeout (ms : Z) :
  steady -> completes (page_wait_for_timeout ms).
Proof.
  intros (_ & _ & H & _) w. unfold page_wait_for_timeout.
  specialize (H (page w) ms).
  destruct (wait_for_timeout (page w) ms) as [p' r]. simpl in H. subst r.
  eexists tt, _. split; [reflexivity | apply extends_called].
Qed.

Lemma completes_screenshot (path : string) :
  steady -> completes (page_screenshot path).
Proof.
  intros (_ & _ & _ & H) w. unfold page_screenshot.
  specialize (H (page w) path).
  destruct (screenshot (page w) path) as [p' r]. simpl in H. subst r.
  eexists tt, _. split; [reflexivity | apply extends_called].
Qed.

Lemma completes_close : completes browser_close.
Proof. intros w. eexists tt, _. split; [reflexivity | apply extends_called]. Qed.

Lemma completes_count (l : Locator) : completes (count l).
Proof. intros w. eexists _, _. split; [reflexivity | apply extends_called]. Qed.

Lemma completes_console_logs : completes console_logs.
Proof. intros w. eexists _, _. split; [reflexivity | apply extends_refl]. Qed.

Lemma grows_click (l : Locator) (force : bool) : grows (click l force).
Proof.
  intros w. unfold click. destruct (target (page w) l) as [e | err]; simpl.
  - destruct (click_elem (page w) e force) as [p' r]. apply extends_called.
  - apply extends_refl.
Qed.

Lemma grows_fill (l : Locator) (value : string) : grows (fill l value).
Proof.
  intros w. unfold fill. destruct (target (page w) l) as [e | err]; simpl.
  - destruct (fill_elem (page w) e value) as [p' r]. apply extends_called.
  - apply extends_refl.
Qed.

Lemma grows_request_get (url : string) : grows (request_get url).
Proof.
  intros w. unfold request_get.
  destruct (http_get (page w) url) as [p' r]. apply extends_called.
Qed.

(** *** Sequencing and handlers *)

Lemma bind_ok {A C} (m : M A) (f : A -> M C) (w w' : World) (a : A) :
  m w = (Ok a, w') -> (m ≫= f) w = f a w'.
Proof. intros H. unfold mbind, M_bind. now rewrite H. Qed.

Lemma bind_raise {A C} (m : M A) (f : A -> M C) (w w' : World) (e : string) :
  m w = (Raise e, w') -> (m ≫= f) w = (Raise e, w').
Proof. intros H. unfold mbind, M_bind. now rewrite H. Qed.

Lemma grows_bind {A C} (m : M A) (f : A -> M C) :
  grows m -> (forall a, grows (f a)) -> grows (m ≫= f).
Proof.
  intros Hm Hf w. specialize (Hm w).
  destruct (m w) as [[a | e] w'] eqn:Hrun; simpl in Hm.
  - rewrite (bind_ok _ _ _ _ _ Hrun). eapply extends_trans; [exact Hm | apply Hf].
  - now rewrite (bind_raise _ _ _ _ _ Hrun).
Qed.

Lemma completes_bind {A C} (m : M A) (f : A -> M C) :
  completes m -> (forall a, completes (f a)) -> completes (m ≫= f).
Proof.
  intros Hm Hf w. destruct (Hm w) as (a & w1 & Hrun & Hext1).
  destruct (Hf a w1) as (c & w2 & Hrun2 & Hext2).
  exists c, w2. split; [| eapply extends_trans; eassumption].
  now rewrite (bind_ok _ _ _ _ _ Hrun).
Qed.


Lemma grows_try (body : M unit) (handler : string -> M unit) :
  grows body -> (forall e, grows (handler e)) ->
  grows (try_except body handler).
Proof.
  intros Hb Hh w. unfold try_except. specialize (Hb w).
  destruct (body w) as [[[] | e] w1]; simpl in Hb; [exact Hb |].
  eapply extends_trans; [exact Hb | apply Hh].
Qed.

Lemma grows_when_present (l : Locator) (body : M unit) :
  grows body -> grows (when_present l body).
Proof.
  intros Hb. unfold when_present. apply grows_bind.
  - apply completes_grows, completes_count.
  - intros n. destruct (0 <? n)%nat; [exact Hb | apply completes_grows, completes_ret].
Qed.

Lemma completes_print_all (lines : list string) : completes (print_all lines).
Proof.
  induction lines as [|line rest IH]; simpl.
  - apply completes_ret.
  - apply completes_bind; [apply completes_print | intros _; exact IH].
Qed.

(** *** Calls that are made whatever happens *)








End Runs.

(** Goals [grows m] and [completes m] follow the shape of the script; the
    second needs the browser to be steady. *)
Ltac run_grows :=
  repeat lazymatch goal with
  | |- grows (print _) => apply completes_grows, completes_print
  | |- grows (print_all _) => apply completes_grows, completes_print_all
  | |- grows (mret _) => apply completes_grows, completes_ret
  | |- grows console_logs => apply completes_grows, completes_console_logs
  | |- grows browser_close => apply completes_grows, completes_close
  | |- grows (count _) => apply completes_grows, completes_count
  | |- grows (page_goto _) => apply grows_goto
  | |- grows (page_wait_for_load_state _) => apply grows_load_state
  | |- grows (page_wait_for_timeout _) => apply grows_timeout
  | |- grows (page_screenshot _) => apply grows_screenshot
  | |- grows (click _ _) => apply grows_click
  | |- grows (fill _ _) => apply grows_fill
  | |- grows (request_get _) => apply grows_request_get
  | |- grows (when_present _ _) => apply grows_when_present
  | |- grows (try_except _ _) => apply grows_try; [| intros ?]
  | |- grows (if ?b then _ else _) => destruct b
  | |- grows (match ?l with [] => _ | _ :: _ => _ end) => destruct l
  | |- grows (let '(_, _) := ?x in _) => destruct x
  | |- grows (mbind _ _) => apply grows_bind; [| intros ?]
  end.

Ltac run_completes Hsteady :=
  repeat lazymatch goal with
  | |- completes (print _) => apply completes_print
  | |- completes (print_all _) => apply completes_print_all
  | |- completes (mret _) => apply completes_ret
  | |- completes console_logs => apply completes_console_logs
  | |- completes browser_close => apply completes_close
  | |- completes (count _) => apply completes_count
  | |- completes (page_goto _) => apply completes_goto; exact Hsteady
  | |- completes (page_wait_for_load_state _) =>
      apply completes_load_state; exact Hsteady
  | |- completes (page_wait_for_timeout _) =>
      apply completes_timeout; exact Hsteady
  | |- completes (page_screenshot _) =>
      apply completes_screenshot; exact Hsteady
  | |- completes (match ?l with [] => _ | _ :: _ => _ end) => destruct l
  | |- completes (mbind _ _) => apply completes_bind; [| intros ?]
  end.

Ltac open_steps :=
  unfold generate_step, continue_step, amount_fill_step, deposit_step,
    mock_step, mint_step, confirm_checkbox, setup_generate_step,
    setup_continue_step, setup_amount_step, setup_checkbox_step,
    setup_deposit_step.

Section FlowProperties.
Context {B : Browser}.

(** ** Single steps *)

Lemma when_present_absent (l : Locator) (body : M unit) (w : World) :
  resolve (page w) l = [] ->
  when_present l body w = (Ok tt, called (CCount l) (page w) w).
Proof.
  intros H. unfold when_present, mbind, M_bind, count. now rewrite H.
Qed.

Lemma when_present_found (l : Locator) (body : M unit) (w : World)
    (e : Elem) (rest : list Elem) :
  resolve (page w) l = e :: rest ->
  when_present l body w = body (called (CCount l) (page w) w).
Proof.
  intros H. unfold when_present, mbind, M_bind, count. now rewrite H.
Qed.

Lemma target_first (p : Page) (l : Locator) (e : Elem) (rest : list Elem) :
  resolve p l = e :: rest -> target p (First l) = inl e.
Proof. intros H. unfold target. simpl. now rewrite H. Qed.

(** Without [.first] an action on several matches is refused. *)
Lemma target_strict (p : Page) (l : Locator) (e e' : Elem) (rest : list Elem) :
  resolve p l = e :: e' :: rest ->
  target p l = inr "strict mode violation: locator resolved to several elements".
Proof. intros H. unfold target. now rewrite H. Qed.

Lemma print_all_run (lines : list string) (w : World) :
  print_all lines w =
  (Ok tt, {| page := page w; stdout := stdout w ++ lines; calls := calls w |}).
Proof.
  revert w. induction lines as [|line rest IH]; intros w; simpl.
  - unfold mret, M_ret. rewrite app_nil_r. now destruct w.
  - unfold mbind, M_bind, print. rewrite IH. simpl.
    now rewrite <- app_assoc.
Qed.

(** ** The first of several matches *)

Lemma action_on_first (l : Locator) (a : Action) (act k : M unit) :
  (forall w e, target (page w) (First l) = inl e ->
     act w = (raised (snd (action_outcome a (page w) e)),
              called (action_call a e) (fst (action_outcome a (page w) e)) w)) ->
  grows k ->
  acts_on_first l a (when_present l (act;; k)).
Proof.
  intros Hact Hk w e e' rest Hr.
  rewrite (when_present_found l _ w e (e' :: rest) Hr).
  set (w1 := called (CCount l) (page w) w).
  assert (Ht : target (page w1) (First l) = inl e)
    by (apply (target_first _ l e (e' :: rest)); exact Hr).
  unfold mbind, M_bind. rewrite (Hact w1 e Ht).
  change (page w1) with (page w).
  destruct (action_outcome a (page w) e) as [p' [err |]]; simpl.
  - split.
    + exists []. now rewrite <- app_assoc.
    + intros err' H. simpl in H. congruence.
  - split; [| intros err' H; discriminate H].
    destruct (Hk (called (action_call a e) p' w1)) as [_ [cs Hcs]].
    exists cs. rewrite Hcs. simpl. now rewrite <- !app_assoc.
Qed.

Lemma click_on_target (l : Locator) (force : bool) (w : World) (e : Elem) :
  target (page w) l = inl e ->
  click l force w =
  (raised (snd (click_elem (page w) e force)),
   called (CClick e force) (fst (click_elem (page w) e force)) w).
Proof.
  intros Ht. unfold click. rewrite Ht.
  now destruct (click_elem (page w) e force).
Qed.

Lemma fill_on_target (l : Locator) (value : string) (w : World) (e : Elem) :
  target (page w) l = inl e ->
  fill l value w =
  (raised (snd (fill_elem (page w) e value)),
   called (CFill e value) (fst (fill_elem (page w) e value)) w).
Proof.
  intros Ht. unfold fill. rewrite Ht.
  now destruct (fill_elem (page w) e value).
Qed.

Lemma first_click (l : Locator) (force : bool) (k : M unit) :
  grows k ->
  acts_on_first l (Clicks force) (when_present l (click (First l) force;; k)).
Proof.
  apply action_on_first. intros w e Ht. now apply click_on_target.
Qed.

Lemma first_fill (l : Locator) (value : string) (k : M unit) :
  grows k ->
  acts_on_first l (Fills value) (when_present l (fill (First l) value;; k)).
Proof.
  apply action_on_first. intros w e Ht. now apply fill_on_target.
Qed.

Lemma first_click_after_print (l : Locator) (force : bool) (line : string)
    (k : M unit) :
  grows k ->
  acts_on_first l (Clicks force)
    (when_present l (print line;; click (First l) force;; k)).
Proof.
  intros Hk w e e' rest Hr.
  rewrite (when_present_found l _ w e (e' :: rest) Hr).
  set (w1 := called (CCount l) (page w) w).
  set (w2 := {| page := page w1; stdout := stdout w1 ++ [line];
                calls := calls w1 |}).
  assert (Ht : target (page w2) (First l) = inl e)
    by (apply (target_first _ l e (e' :: rest)); exact Hr).
  unfold mbind, M_bind, print. fold w2.
  rewrite (click_on_target (First l) force w2 e Ht).
  change (page w2) with (page w). cbn [action_outcome action_call].
  destruct (click_elem (page w) e force) as [p' [err |]]; simpl.
  - split.
    + exists []. now rewrite <- app_assoc.
    + intros err' H. simpl in H. congruence.
  - split; [| intros err' H; discriminate H].
    destruct (Hk (called (CClick e force) p' w2)) as [_ [cs Hcs]].
    exists cs. rewrite Hcs. simpl. now rewrite <- !app_assoc.
Qed.

Lemma acts_on_first_then (l : Locator) (a : Action) (step rest : M unit) :
  acts_on_first l a step -> grows rest -> acts_on_first l a (step;; rest).
Proof.
  intros Hs Hr w e e' es Hres. destruct (Hs w e e' es Hres) as [[cs Hcs] Herr].
  destruct (step w) as [[[] | err] w1] eqn:Hrun; simpl in Hcs, Herr.
  - rewrite (bind_ok _ _ _ _ _ Hrun). split.
    + destruct (Hr w1) as [_ [cs2 Hcs2]]. exists (cs ++ cs2).
      rewrite Hcs2, Hcs. now rewrite <- !app_assoc.
    + intros err H. discriminate (Herr err H).
  - rewrite (bind_raise _ _ _ _ _ Hrun). split; [now exists cs | exact Herr].
Qed.

(** A step that tries one selector and falls back on a second one. *)
Lemma fallback_calls (s1 s2 line1 line2 : string) (w : World) :
  calls (snd ((n ← count (Css s1);
               if (0 <? n)%nat then
                 click (First (Css s1)) false;; print line1
               else
                 when_present (Css s2)
                   (click (First (Css s2)) true;; print line2)) w)) =
  calls w ++
  match query (page w) s1 with
  | e :: _ => [CCount (Css s1); CClick e false]
  | [] =>
      CCount (Css s1) ::
      match query (page w) s2 with
      | e :: _ => [CCount (Css s2); CClick e true]
      | [] => [CCount (Css s2)]
      end
  end.
Proof.
  unfold when_present, mbind, M_bind, count, click, target. simpl.
  destruct (query (page w) s1) as [|e es] eqn:H1; simpl; rewrite ?H1; simpl.
  - destruct (query (page w) s2) as [|e es] eqn:H2; simpl; rewrite ?H2; simpl.
    + rewrite <- ?app_assoc; reflexivity.
    + destruct (click_elem (page w) e true) as [p' [err |]]; simpl;
        rewrite <- ?app_assoc; reflexivity.
  - destruct (click_elem (page w) e false) as [p' [err |]]; simpl;
      rewrite <- ?app_assoc; reflexivity.
Qed.

Lemma confirm_checkbox_calls (w : World) :
  calls (snd (confirm_checkbox w)) =
  calls w ++
  match resolve (page w) checkbox_label with
  | e :: _ => [CCount checkbox_label; CClick e false]
  | [] =>
      CCount checkbox_label ::
      match resolve (page w) checkbox_container with
      | e :: _ => [CCount checkbox_container; CClick e true]
      | [] => [CCount checkbox_container]
      end
  end.
Proof. exact (fallback_calls _ _ _ _ w). Qed.

Lemma first_label : acts_on_first checkbox_label (Clicks false) confirm_checkbox.
Proof.
  intros w e e' rest Hr.
  set (w1 := called (CCount checkbox_label) (page w) w).
  unfold confirm_checkbox.
  rewrite (bind_ok (count checkbox_label) _ w w1 _ eq_refl).
  rewrite Hr. cbn [length Nat.ltb Nat.leb].
  unfold mbind, M_bind.
  rewrite (click_on_target (First checkbox_label) false w1 e
             (target_first _ checkbox_label e (e' :: rest) Hr)).
  change (page w1) with (page w). cbn [action_outcome action_call].
  destruct (click_elem (page w) e false) as [p' [err |]]; simpl.
  - split; [exists []; now rewrite <- app_assoc |].
    intros err' H. simpl in H. congruence.
  - split; [exists []; now rewrite <- !app_assoc |].
    intros err' H. discriminate H.
Qed.

Lemma first_container (w : World) (e e' : Elem) (rest : list Elem) :
  resolve (page w) checkbox_label = [] ->
  resolve (page w) checkbox_container = e :: e' :: rest ->
  calls (snd (confirm_checkbox w)) =
    calls w ++ [CCount checkbox_label; CCount checkbox_container; CClick e true] /\
  (forall err, snd (click_elem (page w) e true) = Some err ->
               fst (confirm_checkbox w) = Raise err).
Proof.
  intros Hl Hc. split.
  - rewrite confirm_checkbox_calls. now rewrite Hl, Hc.
  - intros err Herr.
    set (w1 := called (CCount checkbox_label) (page w) w).
    set (w2 := called (CCount checkbox_container) (page w1) w1).
    unfold confirm_checkbox.
    rewrite (bind_ok (count checkbox_label) _ w w1 _ eq_refl).
    rewrite Hl. cbn [length Nat.ltb Nat.leb].
    rewrite (when_present_found checkbox_container _ w1 e (e' :: rest) Hc).
    fold w2. unfold mbind, M_bind.
    rewrite (click_on_target (First checkbox_container) true w2 e
               (target_first _ checkbox_container e (e' :: rest) Hc)).
    change (page w2) with (page w).
    destruct (click_elem (page w) e true) as [p' r]. simpl in Herr. subst r.
    reflexivity.
Qed.

(** ** The blocks of test-proof.py *)

Lemma grows_confirm_checkbox : grows confirm_checkbox.
Proof. unfold confirm_checkbox. run_grows. Qed.










Lemma completes_report : completes report.
Proof. unfold report. run_completes I. Qed.

End FlowProperties.

Section Claims.
Context {B : Browser}.

(** [report] prints [report_lines] of the console buffer and closes the
    browser. *)
Lemma report_run (w : World) :
  report w =
  (Ok tt,
   {| page := page w;
      stdout := stdout w ++ report_lines (map log_entry (console (page w)));
      calls := calls w ++ [CClose] |}).
Proof.
  unfold report, report_lines.
  set (logs := map log_entry (console (page w))).
  unfold mbind, M_bind, print, console_logs, browser_close, called. simpl.
  rewrite !print_all_run. simpl. fold logs.
  destruct (zk_logs logs) as [|z zs]; simpl;
    rewrite print_all_run; simpl; do 2 f_equal;
    rewrite <- !app_assoc; reflexivity.
Qed.






(** The secret step when the click on [Generate] raises. *)
Lemma secret_step_click_raises (w : World) (e : Elem) (rest : list Elem)
    (p' : Page) (err : string) :
  resolve (page w) generate_btn = e :: rest ->
  click_elem (page w) e false = (p', Some err) ->
  secret_step w =
  (Ok tt,
   {| page := p';
      stdout :=
        stdout w ++
        [ nl +:+ "2. Entering secret note...";
          "   Error in secret step: " +:+ err ];
      calls := calls w ++ [ CCount generate_btn; CClick e false ] |}).
Proof.
  intros Hfound Hraise.
  set (w0 := {| page := page w;
                stdout := stdout w ++ [nl +:+ "2. Entering secret note..."];
                calls := calls w |}).
  assert (Hblock : secret_block w0 =
            (Raise err, called (CClick e false) p'
                          (called (CCount generate_btn) (page w0) w0))).
  { unfold secret_block, generate_step. apply bind_raise.
    rewrite (when_present_found generate_btn _ w0 e rest Hfound).
    apply bind_raise.
    set (w1 := called (CCount generate_btn) (page w0) w0).
    rewrite (click_on_target (First generate_btn) false w1 e
               (target_first (page w1) generate_btn e rest Hfound)).
    change (page w1) with (page w). rewrite Hraise. reflexivity. }
  unfold secret_step, mbind, M_bind, print, try_except. fold w0.
  rewrite Hblock. unfold called. simpl.
  now rewrite <- !app_assoc.
Qed.



(** C5: a step whose locator matches nothing takes no action and does not
    raise: the count is zero, the page and the output are left as they were,
    and the script goes on with what follows. *)
Theorem C5_absent_step_is_skipped (l : Locator) (body next : M unit)
    (w : World) (Habsent : resolve (page w) l = []) :
  count l w = (Ok 0%nat, called (CCount l) (page w) w) /\
  when_present l body w = (Ok tt, called (CCount l) (page w) w) /\
  (when_present l body;; next) w = next (called (CCount l) (page w) w).
Proof.
  split; [unfold count; now rewrite Habsent |].
  split; [now apply when_present_absent |].
  exact (bind_ok _ (fun _ => next) _ _ _ (when_present_absent l body w Habsent)).
Qed.

(** C8: every step of the two scripts that acts on an element goes through
    [.first]: on a page where its selector matches several elements, the step
    counts them and performs its action on the first one in document order,
    and it raises only what that action raises.  This holds of the nine
    actions of test-proof.py (the container div being tried when no label
    matches), of the blocks they open, and of the five actions of
    test-zk-proof.py. *)
Theorem C8_first_match_is_acted_on :
  (acts_on_first generate_btn (Clicks false) generate_step /\
   acts_on_first continue_btn (Clicks false) continue_step /\
   acts_on_first amount_input (Fills "10000") amount_fill_step /\
   acts_on_first checkbox_label (Clicks false) confirm_checkbox /\
   (forall w e e' rest,
      resolve (page w) checkbox_label = [] ->
      resolve (page w) checkbox_container = e :: e' :: rest ->
      calls (snd (confirm_checkbox w)) =
        calls w ++
        [CCount checkbox_label; CCount checkbox_container; CClick e true] /\
      (forall err, snd (click_elem (page w) e true) = Some err ->
                   fst (confirm_checkbox w) = Raise err)) /\
   acts_on_first deposit_btn (Clicks false) deposit_step /\
   acts_on_first sent_btn (Clicks false) sent_block /\
   acts_on_first mock_btn (Clicks false) mock_step /\
   acts_on_first mint_btn (Clicks false) mint_step) /\
  (acts_on_first generate_btn (Clicks false) secret_block /\
   acts_on_first amount_input (Fills "10000") amount_block /\
   acts_on_first mock_btn (Clicks false) confirmation_block) /\
  (acts_on_first generate_btn (Clicks false) setup_generate_step /\
   acts_on_first continue_btn (Clicks false) setup_continue_step /\
   acts_on_first amount_input (Fills "10000") setup_amount_step /\
   acts_on_first checkbox_label (Clicks false) setup_checkbox_step /\
   acts_on_first deposit_btn (Clicks false) setup_deposit_step).
Proof.
  assert (Hgen : acts_on_first generate_btn (Clicks false) generate_step)
    by (apply first_click; run_grows).
  assert (Hfill : acts_on_first amount_input (Fills "10000") amount_fill_step)
    by (apply first_fill; run_grows).
  assert (Hmock : acts_on_first mock_btn (Clicks false) mock_step)
    by (apply first_click; run_grows).
  split; [| split].
  - split; [exact Hgen |].
    split; [apply first_click; run_grows |].
    split; [exact Hfill |].
    split; [apply first_label |].
    split; [apply first_container |].
    split; [apply first_click; run_grows |].
    split; [apply first_click; run_grows |].
    split; [exact Hmock |].
    apply first_click_after_print; run_grows.
  - split; [| split].
    + unfold secret_block. apply acts_on_first_then; [exact Hgen |].
      open_steps. run_grows.
    + unfold amount_block. apply acts_on_first_then; [exact Hfill |].
      open_steps. run_grows.
    + unfold confirmation_block. apply acts_on_first_then; [exact Hmock |].
      open_steps. run_grows.
  - split; [apply first_click; run_grows |].
    split; [apply first_click; run_grows |].
    split; [apply first_fill; run_grows |].
    split; [apply first_click; run_grows |].
    apply first_click; run_grows.
Qed.

(** C9: the checkbox step of [test_deposit_flow] queries the label first;
    when a label matches, its first match is clicked and the container is not
    looked for; only when no label matches is the container div queried and,
    if there is one, its first match clicked (with [force]).  The checkbox
    input itself is never the target. *)
Theorem C9_checkbox_fallback_chain (w : World) :
  calls (snd (confirm_checkbox w)) =
  calls w ++
  match resolve (page w) checkbox_label with
  | e :: _ => [CCount checkbox_label; CClick e false]
  | [] =>
      CCount checkbox_label ::
      match resolve (page w) checkbox_container with
      | e :: _ => [CCount checkbox_container; CClick e true]
      | [] => [CCount checkbox_container]
      end
  end.
Proof.
  exact (fallback_calls _ _ _ _ w).
Qed.

End Claims.

(** ** The theorems at work on the stub pages *)




Lemma stub_steady (s : Stub) : @steady (stub_browser s).
Proof. repeat split. Qed.



Lemma C5_absent_step_is_skipped_witness :
  @resolve (stub_browser bare) blank generate_btn = [] /\
  @when_present (stub_browser bare) generate_btn
    (click (First generate_btn) false;; page_wait_for_timeout 500)
    (stub_start bare)
  = (Ok tt, @Build_World (stub_browser bare) blank [] [ CCount generate_btn ]).
Proof.
  split; [reflexivity |].
  apply (@C5_absent_step_is_skipped (stub_browser bare) generate_btn
           (click (First generate_btn) false;; page_wait_for_timeout 500)
           (mret tt) (stub_start bare)).
  reflexivity.
Defined.

Lemma C8_first_match_is_acted_on_witness :
  @resolve (stub_browser healthy) blank generate_btn
    = [ stub_elem healthy (selector_of generate_btn) 0;
        stub_elem healthy (selector_of generate_btn) 1 ] /\
  exists cs,
    calls (snd (@generate_step (stub_browser healthy) (stub_start healthy)))
    = calls (stub_start healthy) ++
      CCount generate_btn ::
      CClick (stub_elem healthy (selector_of generate_btn) 0) false :: cs.
Proof.
  assert (Hmany :
    @resolve (stub_browser healthy) blank generate_btn
    = [ stub_elem healthy (selector_of generate_btn) 0;
        stub_elem healthy (selector_of generate_btn) 1 ])
    by reflexivity.
  split; [exact Hmany |].
  destruct (@C8_first_match_is_acted_on (stub_browser healthy))
    as [[Hgen _] _].
  exact (proj1 (Hgen (stub_start healthy) _ _ _ Hmany)).
Defined.

(** * Further properties of the two scripts *)

(** ** The keyword filter of test-proof.py *)

Lemma str_in_empty (s : string) : str_in EmptyString s = true.
Proof. now destruct s. Qed.

Lemma filter_all {A} (f : A -> bool) (l : list A) :
  (forall x, In x l -> f x = true) -> List.filter f l = l.
Proof.
  induction l as [|x l IH]; intros H; simpl; [reflexivity |].
  rewrite (H x (or_introl eq_refl)). f_equal. apply IH.
  intros y Hy. apply H. now right.
Qed.

Lemma filter_twice {A} (f : A -> bool) (l : list A) :
  List.filter f (List.filter f l) = List.filter f l.
Proof.
  apply filter_all. intros x Hx. now apply List.filter_In in Hx.
Qed.

Lemma filter_sublist_implied {A} (f g : A -> bool) (l : list A) :
  (forall x, f x = true -> g x = true) ->
  List.filter f l `sublist_of` List.filter g l.
Proof.
  intros Himp. induction l as [|x l IH]; simpl; [constructor |].
  destruct (f x) eqn:Hf.
  - rewrite (Himp x Hf). now constructor.
  - destruct (g x); [now constructor | exact IH].
Qed.

Lemma correlate_In (kws logs : list string) (log : string) :
  In log (correlate kws logs) <->
  In log logs /\
  exists kw, In kw kws /\ str_in (lower kw) (lower log) = true.
Proof. unfold correlate. now rewrite List.filter_In, existsb_In. Qed.

(** For ASCII keywords and an ASCII line: the line is kept by the filter
    exactly when it is in the buffer and some keyword occurs in it, case
    being ignored on both sides. *)
Theorem correlate_keeps_matching_lines (kws logs : list string) (log : string)
    (Hkws : forall kw, In kw kws -> is_ascii kw = true)
    (Hlog : is_ascii log = true) :
  In log (correlate kws logs) <->
  In log logs /\
  exists kw, In kw kws /\ substring_of (lower kw) (lower log).
Proof.
  rewrite correlate_In.
  split; intros [Hin (kw & Hkw & H)]; (split; [exact Hin |]);
    exists kw; (split; [exact Hkw |]); now apply str_in_spec.
Qed.

(** Filtering a buffer that grew is filtering what was there and what came
    after; filtering the filtered lines again changes nothing. *)
Theorem correlate_app_idempotent (kws logs more : list string) :
  correlate kws (logs ++ more) = correlate kws logs ++ correlate kws more /\
  correlate kws (correlate kws logs) = correlate kws logs.
Proof.
  unfold correlate. split; [apply List.filter_app | apply filter_twice].
Qed.

(** An empty keyword is in every line, so a keyword list holding it keeps the
    whole buffer; an empty keyword list keeps nothing. *)
Theorem correlate_empty_keyword (kws logs : list string)
    (Hempty : In EmptyString kws) :
  correlate kws logs = logs /\ correlate [] logs = [].
Proof.
  split.
  - unfold correlate. apply filter_all. intros log _.
    apply existsb_In. exists EmptyString. split; [exact Hempty |].
    apply str_in_empty.
  - unfold correlate. induction logs as [|x l IH]; simpl; [reflexivity | exact IH].
Qed.

Lemma correlate_keeps_matching_lines_witness :
  In "[log] ZK proof ready" (correlate zk_keywords [ "[log] ZK proof ready" ]).
Proof.
  apply (correlate_keeps_matching_lines zk_keywords).
  - intros kw Hkw. unfold zk_keywords in Hkw. simpl in Hkw.
    repeat (destruct Hkw as [<- | Hkw]; [reflexivity |]). destruct Hkw.
  - reflexivity.
  - split; [now left |]. exists "ZK". split; [right; now left |].
    now exists "[log] ", " proof ready".
Defined.

Lemma correlate_empty_keyword_witness :
  correlate [ "proof"; EmptyString ] [ "[log] hello"; "[error] x" ]
    = [ "[log] hello"; "[error] x" ].
Proof.
  apply (correlate_empty_keyword [ "proof"; EmptyString ]
           [ "[log] hello"; "[error] x" ]).
  right. now left.
Defined.

Lemma zk_keyword_selects (kw log : string) :
  In kw zk_keywords -> str_in (lower kw) (lower log) = true ->
  existsb (fun kw => str_in (lower kw) (lower log)) zk_keywords = true.
Proof. intros Hin H. apply existsb_In. now exists kw. Qed.

(** What the filters of test-zk-proof.py show, the filter of test-proof.py
    shows too, in the same order. *)
Theorem zk_logs_cover_setup_filters (logs : list string) :
  poseidon_logs logs `sublist_of` zk_logs logs /\
  zk_setup_logs logs `sublist_of` zk_logs logs.
Proof.
  unfold poseidon_logs, zk_setup_logs, zk_filter, zk_logs, correlate. split.
  - apply filter_sublist_implied. intros log H.
    apply orb_true_iff in H. destruct H as [H | H].
    + apply (zk_keyword_selects "Poseidon"); [unfold zk_keywords; simpl; tauto |].
      apply str_in_spec, substring_of_lower, str_in_spec, H.
    + apply (zk_keyword_selects "commitment"); [unfold zk_keywords; simpl; tauto |].
      exact H.
  - apply filter_sublist_implied. intros log H.
    apply existsb_In in H. destruct H as (kw & Hkw & H).
    unfold zk_setup_keywords in Hkw. simpl in Hkw.
    destruct Hkw as [<- | [<- | [<- | [<- | []]]]].
    + apply (zk_keyword_selects "ZK"); [unfold zk_keywords; simpl; tauto | exact H].
    + apply (zk_keyword_selects "proof"); [unfold zk_keywords; simpl; tauto | exact H].
    + apply (zk_keyword_selects "snark"); [unfold zk_keywords; simpl; tauto | exact H].
    + apply (zk_keyword_selects "circom"); [unfold zk_keywords; simpl; tauto | exact H].
Qed.

(** ** The last thirty lines *)

(** For [n] at least 1 (the script has 30), [l[-n:]] is the end of [l]: it
    has [min n (len l)] entries, and it is [l] itself when [l] has at most
    [n]; [l[-0:]] is all of [l]. *)
Theorem last_n_is_suffix {A} (n : nat) (l : list A) (Hpos : (0 < n)%nat) :
  (exists before, l = before ++ last_n n l) /\
  length (last_n n l) = Nat.min n (length l) /\
  ((length l <= n)%nat -> last_n n l = l) /\
  last_n 0 l = l.
Proof.
  unfold last_n. destruct n as [|n]; [lia |].
  split; [| split; [| split]].
  - exists (firstn (length l - S n) l). symmetry. apply firstn_skipn.
  - rewrite length_skipn. lia.
  - intros Hle. replace (length l - S n)%nat with 0%nat by lia. reflexivity.
  - reflexivity.
Qed.

Lemma last_n_is_suffix_witness :
  (exists before,
     [ 1%nat; 2%nat; 3%nat ] = before ++ last_n 2 [ 1%nat; 2%nat; 3%nat ]) /\
  length (last_n 2 [ 1%nat; 2%nat; 3%nat ]) = 2%nat /\
  last_n 2 [ 1%nat; 2%nat; 3%nat ] = [ 2%nat; 3%nat ].
Proof.
  destruct (last_n_is_suffix 2 [ 1%nat; 2%nat; 3%nat ]) as (H1 & H2 & _);
    [lia |].
  split; [exact H1 |]. split; [exact H2 | reflexivity].
Defined.

(** ** The verdict of test-zk-proof.py *)

(** The marker check on a buffer that grew is the check on what was there or
    on what came after: entries added later never undo a success. *)
Theorem poseidon_ok_app (logs more : list string) :
  poseidon_ok (logs ++ more) = poseidon_ok logs || poseidon_ok more.
Proof. rewrite !poseidon_ok_unfiltered. apply existsb_app. Qed.

Lemma substring_of_entry (msg : ConsoleMessage) (sub : string) :
  substring_of sub (msg_text msg) -> substring_of sub (log_entry msg).
Proof.
  intros (pre & post & H). unfold log_entry.
  exists ("[" +:+ msg_type msg +:+ "] " +:+ pre), post.
  rewrite H, !append_assoc. reflexivity.
Qed.

(** A console message whose text has the marker phrase makes the check
    succeed, whatever its type and whatever else is in the buffer. *)
Theorem marker_message_is_seen (msgs : list ConsoleMessage)
    (msg : ConsoleMessage) (Hin : In msg msgs)
    (Hmarker : substring_of marker (msg_text msg)) :
  poseidon_ok (map log_entry msgs) = true.
Proof.
  apply poseidon_ok_spec. exists (log_entry msg).
  split; [now apply in_map | now apply substring_of_entry].
Qed.

Lemma marker_message_is_seen_witness :
  poseidon_ok
    (map log_entry
       [ {| msg_type := "warning"; msg_text := "slow" |};
         {| msg_type := "log"; msg_text := "Poseidon note created: 0x1f" |} ])
  = true.
Proof.
  apply (marker_message_is_seen _
           {| msg_type := "log"; msg_text := "Poseidon note created: 0x1f" |}).
  - right. now left.
  - now exists EmptyString, ": 0x1f".
Defined.

(** The summary ends with the success line exactly when the three files
    answered 200 and some entry has the marker phrase, and with the failure
    line exactly otherwise; it never has both. *)
Theorem summary_verdict_line (wasm_status zkey_status vk_status : Z)
    (logs : list string) :
  (In (nl +:+ "  ZK integration is properly set up!")
      (verification_summary wasm_status zkey_status vk_status logs) <->
   (wasm_status = 200%Z /\ zkey_status = 200%Z /\ vk_status = 200%Z) /\
   exists log, In log logs /\ substring_of marker log) /\
  (In (nl +:+ "  Some components are missing.")
      (verification_summary wasm_status zkey_status vk_status logs) <->
   overall_ok wasm_status zkey_status vk_status logs = false).
Proof.
  rewrite <- circuit_files_ok_spec, <- poseidon_ok_spec, <- andb_true_iff.
  unfold verification_summary, overall_ok.
  destruct (circuit_files_ok wasm_status zkey_status vk_status);
    destruct (poseidon_ok logs); simpl;
    (split; split; intros H;
     try reflexivity; try discriminate H;
     try (right; right; left; reflexivity);
     repeat (destruct H as [H | H]; try discriminate H);
     try exact H; try contradiction).
Qed.

(** ** The calls a run can make *)

Section Confinement.
Context {B : Browser}.
Variable P : Call -> Prop.

Lemma confined_quiet {A} (m : M A) :
  (forall w, calls (snd (m w)) = calls w) -> confined P m.
Proof.
  intros H w. exists []. rewrite H, app_nil_r. split; [reflexivity | constructor].
Qed.

Lemma confined_ret {A} (a : A) : confined P (mret a : M A).
Proof. now apply confined_quiet. Qed.

Lemma confined_print (line : string) : confined P (print line).
Proof. now apply confined_quiet. Qed.

Lemma confined_console_logs : confined P console_logs.
Proof. now apply confined_quiet. Qed.

Lemma confined_one {A} (c : Call) (m : M A) :
  P c -> (forall w, calls (snd (m w)) = calls w ++ [c]) -> confined P m.
Proof.
  intros Hc H w. exists [c]. split; [apply H | now repeat constructor].
Qed.

Lemma confined_goto (url : string) : P (CGoto url) -> confined P (page_goto url).
Proof.
  intros H. apply (confined_one (CGoto url)); [exact H |].
  intros w. unfold page_goto. now destruct (goto (page w) url).
Qed.

Lemma confined_load_state (state : string) :
  P (CLoadState state) -> confined P (page_wait_for_load_state state).
Proof.
  intros H. apply (confined_one (CLoadState state)); [exact H |].
  intros w. unfold page_wait_for_load_state.
  now destruct (wait_for_load_state (page w) state).
Qed.

Lemma confined_timeout (ms : Z) :
  P (CWait ms) -> confined P (page_wait_for_timeout ms).
Proof.
  intros H. apply (confined_one (CWait ms)); [exact H |].
  intros w. unfold page_wait_for_timeout.
  now destruct (wait_for_timeout (page w) ms).
Qed.

Lemma confined_screenshot (path : string) :
  P (CShot path) -> confined P (page_screenshot path).
Proof.
  intros H. apply (confined_one (CShot path)); [exact H |].
  intros w. unfold page_screenshot. now destruct (screenshot (page w) path).
Qed.

Lemma confined_close : P CClose -> confined P browser_close.
Proof. intros H. now apply (confined_one CClose). Qed.

Lemma confined_count (l : Locator) : P (CCount l) -> confined P (count l).
Proof. intros H. now apply (confined_one (CCount l)). Qed.

Lemma confined_request_get (url : string) :
  P (CGet url) -> confined P (request_get url).
Proof.
  intros H. apply (confined_one (CGet url)); [exact H |].
  intros w. unfold request_get. now destruct (http_get (page w) url).
Qed.

Lemma confined_click (l : Locator) (force : bool) :
  (forall e, P (CClick e force)) -> confined P (click l force).
Proof.
  intros H w. unfold click. destruct (target (page w) l) as [e | err].
  - destruct (click_elem (page w) e force) as [p' r].
    exists [CClick e force]. split; [reflexivity | now repeat constructor].
  - exists []. simpl. rewrite app_nil_r. split; [reflexivity | constructor].
Qed.

Lemma confined_fill (l : Locator) (value : string) :
  (forall e, P (CFill e value)) -> confined P (fill l value).
Proof.
  intros H w. unfold fill. destruct (target (page w) l) as [e | err].
  - destruct (fill_elem (page w) e value) as [p' r].
    exists [CFill e value]. split; [reflexivity | now repeat constructor].
  - exists []. simpl. rewrite app_nil_r. split; [reflexivity | constructor].
Qed.

Lemma confined_bind {A C} (m : M A) (f : A -> M C) :
  confined P m -> (forall a, confined P (f a)) -> confined P (m ≫= f).
Proof.
  intros Hm Hf w. destruct (Hm w) as (cs & Hcs & HP).
  destruct (m w) as [[a | e] w1] eqn:Hrun; simpl in Hcs.
  - rewrite (bind_ok _ _ _ _ _ Hrun).
    destruct (Hf a w1) as (cs2 & Hcs2 & HP2).
    exists (cs ++ cs2). split; [now rewrite Hcs2, Hcs, app_assoc |].
    apply Forall_app. now split.
  - rewrite (bind_raise _ _ _ _ _ Hrun). now exists cs.
Qed.

Lemma confined_try (body : M unit) (handler : string -> M unit) :
  confined P body -> (forall e, confined P (handler e)) ->
  confined P (try_except body handler).
Proof.
  intros Hb Hh w. unfold try_except. destruct (Hb w) as (cs & Hcs & HP).
  destruct (body w) as [[[] | e] w1]; simpl in Hcs; [now exists cs |].
  destruct (Hh e w1) as (cs2 & Hcs2 & HP2).
  exists (cs ++ cs2). split; [now rewrite Hcs2, Hcs, app_assoc |].
  apply Forall_app. now split.
Qed.

Lemma confined_when_present (l : Locator) (body : M unit) :
  P (CCount l) -> confined P body -> confined P (when_present l body).
Proof.
  intros Hl Hb. unfold when_present. apply confined_bind.
  - now apply confined_count.
  - intros n. destruct (0 <? n)%nat; [exact Hb | apply confined_ret].
Qed.

Lemma confined_print_all (lines : list string) : confined P (print_all lines).
Proof.
  apply confined_quiet. intros w. now rewrite print_all_run.
Qed.

End Confinement.

Ltac allowed_call :=
  solve [ intros; simpl; repeat (first [ reflexivity | exact I | left; reflexivity | right ]) ].

Ltac run_confined :=
  repeat first
    [ apply confined_print | apply confined_print_all | apply confined_ret
    | apply confined_console_logs
    | apply confined_goto; allowed_call
    | apply confined_load_state; allowed_call
    | apply confined_timeout; allowed_call
    | apply confined_screenshot; allowed_call
    | apply confined_close; allowed_call
    | apply confined_request_get; allowed_call
    | apply confined_click; allowed_call
    | apply confined_fill; allowed_call
    | apply confined_when_present; [allowed_call |]
    | apply confined_count; allowed_call
    | apply confined_try; [| intros ?]
    | match goal with
      | |- confined _ (if ?b then _ else _) => destruct b
      | |- confined _ (match ?l with [] => _ | _ :: _ => _ end) => destruct l
      | |- confined _ (let '(_, _) := ?x in _) => destruct x
      end
    | apply confined_bind; [| intros ?] ].

Section Envelope.
Context {B : Browser}.

(** Whatever the page does and however the run ends, [test_zk_setup] only
    fetches the three circuit files, opens the bridge page, counts its five
    locators, clicks without force, fills in 10000 and waits 500 or 5000 ms;
    it never takes a screenshot. *)
Theorem zk_setup_calls_confined : confined zk_setup_call test_zk_setup.
Proof.
  unfold test_zk_setup, probe_files, create_note, summary. open_steps.
  run_confined.
Qed.

(** Whatever the page does, [test_deposit_flow] never sends an HTTP request
    of its own: it opens the bridge page, counts its nine locators, clicks,
    fills in 10000, waits one of its six fixed delays and writes screenshots
    under [/tmp/bridge-]. *)
Theorem deposit_flow_calls_confined :
  confined deposit_flow_call test_deposit_flow.
Proof.
  unfold test_deposit_flow, navigate, secret_step, secret_block, amount_step,
    amount_block, sent_step, sent_block, confirmation_step,
    confirmation_block, report.
  open_steps. run_confined.
Qed.

End Envelope.

(** ** Runs on a page without controls *)

Section Idle.
Context {B : Browser}.

Lemma makes_ret {A} (a : A) : makes [] (mret a : M A).
Proof. intros w. exists a, w. now rewrite app_nil_r. Qed.

Lemma makes_print (line : string) : makes [] (print line).
Proof. intros w. eexists tt, _. split; [reflexivity |]. simpl. now rewrite app_nil_r. Qed.

Lemma makes_print_all (lines : list string) : makes [] (print_all lines).
Proof.
  intros w. eexists tt, _. split; [apply print_all_run |]. simpl.
  now rewrite app_nil_r.
Qed.

Lemma makes_console_logs : makes [] console_logs.
Proof. intros w. eexists _, w. split; [reflexivity | now rewrite app_nil_r]. Qed.

Lemma makes_goto (url : string) :
  steady -> makes [CGoto url] (page_goto url).
Proof.
  intros (H & _) w. unfold page_goto. specialize (H (page w) url).
  destruct (goto (page w) url) as [p' r]. simpl in H. subst r.
  now eexists tt, _.
Qed.

Lemma makes_load_state (state : string) :
  steady -> makes [CLoadState state] (page_wait_for_load_state state).
Proof.
  intros (_ & H & _) w. unfold page_wait_for_load_state.
  specialize (H (page w) state).
  destruct (wait_for_load_state (page w) state) as [p' r]. simpl in H. subst r.
  now eexists tt, _.
Qed.

Lemma makes_timeout (ms : Z) :
  steady -> makes [CWait ms] (page_wait_for_timeout ms).
Proof.
  intros (_ & _ & H & _) w. unfold page_wait_for_timeout.
  specialize (H (page w) ms).
  destruct (wait_for_timeout (page w) ms) as [p' r]. simpl in H. subst r.
  now eexists tt, _.
Qed.

Lemma makes_screenshot (path : string) :
  steady -> makes [CShot path] (page_screenshot path).
Proof.
  intros (_ & _ & _ & H) w. unfold page_screenshot.
  specialize (H (page w) path).
  destruct (screenshot (page w) path) as [p' r]. simpl in H. subst r.
  now eexists tt, _.
Qed.

Lemma makes_close : makes [CClose] browser_close.
Proof. intros w. now eexists tt, _. Qed.

Lemma makes_request_get (url : string) :
  probes_answer -> In url [ wasm_url; zkey_url; vk_url ] ->
  makes [CGet url] (request_get url).
Proof.
  intros Hp Hurl w. unfold request_get.
  destruct (Hp (page w) url Hurl) as [r Hr].
  destruct (http_get (page w) url) as [p' x]. simpl in Hr. subst x.
  now eexists r, _.
Qed.

Lemma makes_when_present (l : Locator) (body : M unit) :
  no_controls -> makes [CCount l] (when_present l body).
Proof.
  intros Hnone w. exists tt, (called (CCount l) (page w) w).
  split; [| reflexivity]. apply when_present_absent.
  induction l as [s | l IH]; simpl; [apply Hnone | now rewrite IH].
Qed.

Lemma makes_bind {A C} (cs1 cs2 : list Call) (m : M A) (f : A -> M C) :
  makes cs1 m -> (forall a, makes cs2 (f a)) -> makes (cs1 ++ cs2) (m ≫= f).
Proof.
  intros Hm Hf w. destruct (Hm w) as (a & w1 & Hrun & Hcs).
  destruct (Hf a w1) as (c & w2 & Hrun2 & Hcs2).
  exists c, w2. split; [now rewrite (bind_ok _ _ _ _ _ Hrun) |].
  now rewrite Hcs2, Hcs, app_assoc.
Qed.

Lemma makes_bind_nil {A C} (m : M A) (f : A -> M C) :
  makes [] m -> (forall a, makes [] (f a)) -> makes [] (m ≫= f).
Proof. intros Hm Hf. now apply (makes_bind [] []). Qed.

Lemma makes_try (cs : list Call) (body : M unit) (handler : string -> M unit) :
  makes cs body -> makes cs (try_except body handler).
Proof.
  intros Hb w. destruct (Hb w) as ([] & w1 & Hrun & Hcs).
  exists tt, w1. unfold try_except. now rewrite Hrun.
Qed.

End Idle.

Section IdleRuns.
Context {B : Browser}.

Lemma makes_confirm_checkbox :
  no_controls -> makes [CCount checkbox_label; CCount checkbox_container] confirm_checkbox.
Proof.
  intros Hnone w. unfold confirm_checkbox, mbind, M_bind, count.
  assert (Hl : resolve (page w) checkbox_label = []) by apply Hnone.
  rewrite Hl. simpl.
  destruct (makes_when_present checkbox_container
              (click (First checkbox_container) true;;
               print "   Clicked checkbox container") Hnone
              (called (CCount checkbox_label) (page w) w))
    as ([] & w' & Hrun & Hcs).
  exists tt, w'. split; [exact Hrun |].
  rewrite Hcs. simpl. now rewrite <- app_assoc.
Qed.

End IdleRuns.

Ltac run_makes Hsteady Hnone Hp :=
  repeat lazymatch goal with
  | |- makes _ (print _) => eapply makes_print
  | |- makes _ (print_all _) => eapply makes_print_all
  | |- makes _ (mret _) => eapply makes_ret
  | |- makes _ console_logs => eapply makes_console_logs
  | |- makes _ (page_goto _) => eapply makes_goto; exact Hsteady
  | |- makes _ (page_wait_for_load_state _) =>
      eapply makes_load_state; exact Hsteady
  | |- makes _ (page_wait_for_timeout _) => eapply makes_timeout; exact Hsteady
  | |- makes _ (page_screenshot _) => eapply makes_screenshot; exact Hsteady
  | |- makes _ browser_close => eapply makes_close
  | |- makes _ (request_get _) =>
      eapply makes_request_get; [exact Hp | simpl; tauto]
  | |- makes _ (when_present _ _) => eapply makes_when_present; exact Hnone
  | |- makes _ confirm_checkbox => eapply makes_confirm_checkbox; exact Hnone
  | |- makes _ (try_except _ _) => eapply makes_try
  | |- makes _ (match ?l with [] => _ | _ :: _ => _ end) => destruct l
  | |- makes [] (mbind _ _) => eapply makes_bind_nil; [| intros ?]
  | |- makes _ (mbind _ _) => eapply makes_bind; [| intros ?]
  end.

Section IdleTheorems.
Context {B : Browser}.

(** On a browser whose navigation, waits and screenshots do not raise and
    whose pages never show any of the controls, [test_deposit_flow] clicks
    nothing and fills nothing: it ends normally after the navigation, one
    count per locator, its fixed waits and its eight screenshots. *)
Theorem deposit_flow_without_controls (w : World) (Hsteady : steady)
    (Hnone : no_controls) :
  exists w',
    test_deposit_flow w = (Ok tt, w') /\
    calls w' = calls w ++ idle_deposit_calls.
Proof.
  assert (H : exists cs, makes cs test_deposit_flow /\ cs = idle_deposit_calls).
  { eexists. split.
    - unfold test_deposit_flow, navigate, secret_step, secret_block,
        amount_step, amount_block, sent_step, sent_block, confirmation_step,
        confirmation_block, report, generate_step, continue_step,
        amount_fill_step, deposit_step, mock_step, mint_step.
      run_makes Hsteady Hnone I.
    - reflexivity. }
  destruct H as (cs & Hmakes & ->).
  destruct (Hmakes w) as ([] & w' & Hrun & Hcs). now exists w'.
Qed.

(** On such a browser, when the three probes get an answer, [test_zk_setup]
    ends normally after the three requests, the navigation, one count per
    locator and one wait: no click and no fill. *)
Theorem zk_setup_without_controls (w : World) (Hsteady : steady)
    (Hnone : no_controls) (Hprobes : probes_answer) :
  exists w',
    test_zk_setup w = (Ok tt, w') /\
    calls w' = calls w ++ idle_setup_calls.
Proof.
  assert (H : exists cs, makes cs test_zk_setup /\ cs = idle_setup_calls).
  { eexists. split.
    - unfold test_zk_setup, probe_files, create_note, summary,
        setup_generate_step, setup_continue_step, setup_amount_step,
        setup_checkbox_step, setup_deposit_step.
      eapply makes_bind; [run_makes Hsteady Hnone Hprobes |].
      intros [[r1 r2] r3]. run_makes Hsteady Hnone Hprobes.
    - reflexivity. }
  destruct H as (cs & Hmakes & ->).
  destruct (Hmakes w) as ([] & w' & Hrun & Hcs). now exists w'.
Qed.

End IdleTheorems.

Lemma stub_no_controls (s : Stub) :
  present s = [] -> @no_controls (stub_browser s).
Proof. intros H p selector. simpl. now rewrite H. Qed.

Lemma stub_probes_answer (s : Stub) :
  (forall url, In url [ wasm_url; zkey_url; vk_url ] ->
     exists r, assoc url (served s) = Some r) ->
  @probes_answer (stub_browser s).
Proof.
  intros H p url Hurl. simpl. destruct (H url Hurl) as [r ->]. now exists r.
Qed.

Lemma all_served_answers (url : string) :
  In url [ wasm_url; zkey_url; vk_url ] ->
  exists r, assoc url all_served = Some r.
Proof.
  intros [<- | [<- | [<- | []]]]; eexists; reflexivity.
Qed.

Lemma not_deployed_answers (url : string) :
  In url [ wasm_url; zkey_url; vk_url ] ->
  exists r, assoc url (served not_deployed) = Some r.
Proof.
  intros [<- | [<- | [<- | []]]]; eexists; reflexivity.
Qed.

Lemma deposit_flow_without_controls_witness :
  exists w',
    @test_deposit_flow (stub_browser bare) (stub_start bare) = (Ok tt, w') /\
    calls w' = calls (stub_start bare) ++ idle_deposit_calls.
Proof.
  apply (@deposit_flow_without_controls (stub_browser bare) (stub_start bare)).
  - apply stub_steady.
  - now apply stub_no_controls.
Defined.

Lemma zk_setup_without_controls_witness :
  exists w',
    @test_zk_setup (stub_browser not_deployed) (stub_start not_deployed)
      = (Ok tt, w') /\
    calls w' = calls (stub_start not_deployed) ++ idle_setup_calls.
Proof.
  apply (@zk_setup_without_controls (stub_browser not_deployed)
           (stub_start not_deployed)).
  - apply stub_steady.
  - now apply stub_no_controls.
  - apply stub_probes_answer, not_deployed_answers.
Defined.

(** ** Runs on which nothing raises *)

Section Calm.
Context {B : Browser}.

(** [summary] prints [summary_lines] of the console buffer and closes the
    browser. *)
Lemma summary_run (wasm_status zkey_status vk_status : Z) (w : World) :
  summary wasm_status zkey_status vk_status w =
  (Ok tt,
   {| page := page w;
      stdout :=
        stdout w ++
        summary_lines wasm_status zkey_status vk_status
          (map log_entry (console (page w)));
      calls := calls w ++ [CClose] |}).
Proof.
  unfold summary, summary_lines.
  set (logs := map log_entry (console (page w))).
  generalize (verification_summary wasm_status zkey_status vk_status).
  intros verdict.
  unfold mbind, M_bind, print, console_logs, browser_close, called. simpl.
  rewrite !print_all_run. simpl. fold logs.
  destruct (zk_setup_logs logs) as [|z zs]; simpl;
    do 3 (rewrite ?print_all_run; unfold mbind, M_bind, print; simpl);
    do 2 f_equal; rewrite <- ?app_assoc; reflexivity.
Qed.

Lemma completes_present (l : Locator) (a : Action) (act k : M unit) :
  (forall w e, target (page w) (First l) = inl e ->
     act w = (raised (snd (action_outcome a (page w) e)),
              called (action_call a e) (fst (action_outcome a (page w) e)) w)) ->
  (forall p e, snd (action_outcome a p e) = None) ->
  completes k ->
  completes (when_present l (act;; k)).
Proof.
  intros Hact Hquiet Hk w.
  destruct (resolve (page w) l) as [|e es] eqn:Hr.
  - rewrite (when_present_absent _ _ _ Hr).
    eexists tt, _. split; [reflexivity | apply extends_called].
  - rewrite (when_present_found _ _ _ e es Hr).
    set (w1 := called (CCount l) (page w) w).
    assert (Ht : target (page w1) (First l) = inl e)
      by (apply (target_first _ _ e es); exact Hr).
    unfold mbind, M_bind. rewrite (Hact w1 e Ht).
    pose proof (Hquiet (page w1) e) as Hnone.
    destruct (action_outcome a (page w1) e) as [p' r]. simpl in Hnone. subst r.
    simpl.
    destruct (Hk (called (action_call a e) p' w1)) as (x & w2 & Hrun & Hext).
    exists x, w2. split; [exact Hrun |].
    eapply extends_trans; [apply extends_called |].
    eapply extends_trans; [apply extends_called | exact Hext].
Qed.

Lemma completes_present_click (l : Locator) (force : bool) (k : M unit) :
  calm -> completes k ->
  completes (when_present l (click (First l) force;; k)).
Proof.
  intros (_ & Hclick & _) Hk.
  apply (completes_present l (Clicks force)); [| | exact Hk].
  - intros w e Ht. now apply click_on_target.
  - intros p e. apply Hclick.
Qed.

Lemma completes_present_fill (l : Locator) (value : string) (k : M unit) :
  calm -> completes k ->
  completes (when_present l (fill (First l) value;; k)).
Proof.
  intros (_ & _ & Hfill & _) Hk.
  apply (completes_present l (Fills value)); [| | exact Hk].
  - intros w e Ht. now apply fill_on_target.
  - intros p e. apply Hfill.
Qed.

Lemma completes_create_note : calm -> completes create_note.
Proof.
  intros Hcalm. pose proof (proj1 Hcalm) as Hsteady.
  unfold create_note, setup_generate_step, setup_continue_step,
    setup_amount_step, setup_checkbox_step, setup_deposit_step.
  repeat lazymatch goal with
  | |- completes (when_present _ (click _ _;; _)) =>
      apply completes_present_click; [exact Hcalm |]
  | |- completes (when_present _ (fill _ _;; _)) =>
      apply completes_present_fill; [exact Hcalm |]
  | |- completes (mbind _ _) => apply completes_bind; [| intros ?]
  | |- completes (print _) => apply completes_print
  | |- completes (page_goto _) => apply completes_goto; exact Hsteady
  | |- completes (page_wait_for_load_state _) =>
      apply completes_load_state; exact Hsteady
  | |- completes (page_wait_for_timeout _) =>
      apply completes_timeout; exact Hsteady
  end.
Qed.

Lemma probe_files_run (w : World) :
  probes_answer ->
  exists r1 r2 r3 w1,
    probe_files w = (Ok (r1, r2, r3), w1) /\ extends w w1 /\
    snd (http_get (page w) wasm_url) = inl r1 /\
    snd (http_get (fst (http_get (page w) wasm_url)) zkey_url) = inl r2 /\
    snd (http_get (fst (http_get (fst (http_get (page w) wasm_url)) zkey_url))
           vk_url) = inl r3.
Proof.
  intros Hp.
  destruct (Hp (page w) wasm_url) as [r1 H1]; [simpl; tauto |].
  destruct (http_get (page w) wasm_url) as [p1 x1] eqn:E1.
  simpl in H1. subst x1. simpl.
  destruct (Hp p1 zkey_url) as [r2 H2]; [simpl; tauto |].
  destruct (http_get p1 zkey_url) as [p2 x2] eqn:E2.
  simpl in H2. subst x2. simpl.
  destruct (Hp p2 vk_url) as [r3 H3]; [simpl; tauto |].
  destruct (http_get p2 vk_url) as [p3 x3] eqn:E3.
  simpl in H3. subst x3.
  exists r1, r2, r3. eexists. split; [| split; [| now repeat split]].
  - unfold probe_files, mbind, M_bind, print, request_get. simpl.
    rewrite E1. simpl. rewrite E2. simpl. rewrite E3. simpl. reflexivity.
  - split; simpl.
    + eexists. rewrite <- !app_assoc. reflexivity.
    + exists [CGet wasm_url; CGet zkey_url; CGet vk_url].
      now rewrite <- !app_assoc.
Qed.

(** On a browser where nothing raises (navigation, waits, probes, clicks,
    fill), [test_zk_setup] ends normally, and the last lines of its output
    are the verification summary drawn from the statuses of the three answers
    and the console buffer of the page as the run left it, followed by the
    closing line. *)
Theorem zk_setup_calm_verdict (w : World) (Hcalm : calm) :
  exists r1 r2 r3 w' out,
    test_zk_setup w = (Ok tt, w') /\
    snd (http_get (page w) wasm_url) = inl r1 /\
    snd (http_get (fst (http_get (page w) wasm_url)) zkey_url) = inl r2 /\
    snd (http_get (fst (http_get (fst (http_get (page w) wasm_url)) zkey_url))
           vk_url) = inl r3 /\
    stdout w' =
      stdout w ++ out ++
      verification_summary (status r1) (status r2) (status r3)
        (map log_entry (console (page w'))) ++
      [ nl +:+ "Test completed." ].
Proof.
  pose proof Hcalm as (_ & _ & _ & Hp).
  destruct (probe_files_run w Hp)
    as (r1 & r2 & r3 & w1 & Hprobe & [[o1 Ho1] _] & H1 & H2 & H3).
  destruct (completes_create_note Hcalm w1)
    as ([] & w2 & Hnote & [[o2 Ho2] _]).
  set (logs := map log_entry (console (page w2))).
  exists r1, r2, r3. eexists.
  exists (o1 ++ o2 ++
          [ nl +:+ "3. Checking console logs for ZK-related activity...";
            nl +:+ str_repeat "=" 60; "POSEIDON/COMMITMENT LOGS:";
            str_repeat "=" 60 ] ++
          poseidon_logs logs ++
          (match zk_setup_logs logs with
           | [] => []
           | _ :: _ =>
               [ nl +:+ str_repeat "=" 60; "ZK PROOF LOGS:";
                 str_repeat "=" 60 ] ++ zk_setup_logs logs
           end) ++
          [ nl +:+ str_repeat "=" 60; "VERIFICATION SUMMARY:";
            str_repeat "=" 60 ]).
  split; [| split; [exact H1 | split; [exact H2 | split; [exact H3 |]]]].
  - unfold test_zk_setup. rewrite (bind_ok _ _ _ _ _ Hprobe).
    rewrite (bind_ok _ _ _ _ _ Hnote). apply summary_run.
  - cbn [stdout page]. fold logs. rewrite Ho2, Ho1. unfold summary_lines.
    rewrite <- !app_assoc. reflexivity.
Qed.

End Calm.

Lemma healthy_is_calm : @calm (stub_browser healthy).
Proof.
  split; [apply stub_steady |]. split; [| split].
  - intros p e force. reflexivity.
  - intros p e value. reflexivity.
  - apply stub_probes_answer, all_served_answers.
Qed.

Lemma zk_setup_calm_verdict_witness :
  exists r1 r2 r3 w' out,
    @test_zk_setup (stub_browser healthy) (stub_start healthy) = (Ok tt, w') /\
    snd (@http_get (stub_browser healthy) blank wasm_url) = inl r1 /\
    snd (@http_get (stub_browser healthy) blank zkey_url) = inl r2 /\
    snd (@http_get (stub_browser healthy) blank vk_url) = inl r3 /\
    stdout w' =
      out ++
      verification_summary (status r1) (status r2) (status r3)
        (map log_entry (@console (stub_browser healthy) (page w'))) ++
      [ nl +:+ "Test completed." ].
Proof.
  exact (@zk_setup_calm_verdict (stub_browser healthy) (stub_start healthy)
           healthy_is_calm).
Defined.

(** ** A step that raises *)

Section RaisingStep.
Context {B : Browser}.

(** When a [Generate] button is there and clicking the first one raises,
    the secret step ends normally: the message is printed as the error of the
    step, the screenshot of the step is not taken and the [Continue] button
    is not looked for. *)
Theorem secret_step_reports_error (w : World) (e : Elem) (rest : list Elem)
    (p' : Page) (err : string)
    (Hfound : resolve (page w) generate_btn = e :: rest)
    (Hraise : click_elem (page w) e false = (p', Some err)) :
  secret_step w =
  (Ok tt,
   {| page := p';
      stdout :=
        stdout w ++
        [ nl +:+ "2. Entering secret note...";
          "   Error in secret step: " +:+ err ];
      calls := calls w ++ [ CCount generate_btn; CClick e false ] |}).
Proof. exact (secret_step_click_raises w e rest p' err Hfound Hraise). Qed.

End RaisingStep.

Lemma secret_step_reports_error_witness :
  @secret_step (stub_browser stuck_generate) (stub_start stuck_generate) =
  (Ok tt,
   @Build_World (stub_browser stuck_generate) blank
     [ nl +:+ "2. Entering secret note...";
       "   Error in secret step: Timeout 30000ms exceeded." ]
     [ CCount generate_btn;
       CClick (stub_elem stuck_generate (selector_of generate_btn) 0) false ]).
Proof.
  apply (@secret_step_reports_error (stub_browser stuck_generate)
           (stub_start stuck_generate)
           (stub_elem stuck_generate (selector_of generate_btn) 0)
           [ stub_elem stuck_generate (selector_of generate_btn) 1 ]
           blank "Timeout 30000ms exceeded."); reflexivity.
Defined.

Section UnhandledStep.
Context {B : Browser}.

(** In [test_zk_setup] nothing catches a step that raises: when the three
    probes were answered, the navigation returned and the click on the first
    [Generate] button raises, the run ends with that exception right there,
    with no summary printed and the browser not closed. *)
Theorem zk_setup_step_error_ends_run (w : World) (p1 p2 p3 p4 pg p' : Page)
    (r1 r2 r3 : Response) (e : Elem) (rest : list Elem) (err : string)
    (Hwasm : http_get (page w) wasm_url = (p1, inl r1))
    (Hzkey : http_get p1 zkey_url = (p2, inl r2))
    (Hvk : http_get p2 vk_url = (p3, inl r3))
    (Hgoto : goto p3 bridge_url = (p4, None))
    (Hidle : wait_for_load_state p4 "networkidle" = (pg, None))
    (Hfound : resolve pg generate_btn = e :: rest)
    (Hraise : click_elem pg e false = (p', Some err)) :
  test_zk_setup w =
  (Raise err,
   {| page := p';
      stdout :=
        stdout w ++
        [ "1. Testing circuit files accessibility...";
          probe_line "deposit.wasm" (status r1) (headers r1);
          probe_line "deposit_final.zkey" (status r2) (headers r2);
          probe_line "deposit_vk.json" (status r3) (headers r3);
          nl +:+ "2. Testing Poseidon note creation via UI..." ];
      calls :=
        calls w ++
        [ CGet wasm_url; CGet zkey_url; CGet vk_url; CGoto bridge_url;
          CLoadState "networkidle"; CCount generate_btn; CClick e false ] |}).
Proof.
  assert (Hprobe : exists w1,
            probe_files w = (Ok (r1, r2, r3), w1) /\ page w1 = p3 /\
            stdout w1 = stdout w ++
              [ "1. Testing circuit files accessibility...";
                probe_line "deposit.wasm" (status r1) (headers r1);
                probe_line "deposit_final.zkey" (status r2) (headers r2);
                probe_line "deposit_vk.json" (status r3) (headers r3) ] /\
            calls w1 = calls w ++ [ CGet wasm_url; CGet zkey_url; CGet vk_url ]).
  { eexists. split.
    - unfold probe_files, mbind, M_bind, print, request_get. simpl.
      rewrite Hwasm. simpl. rewrite Hzkey. simpl. rewrite Hvk. simpl.
      reflexivity.
    - simpl. split; [reflexivity |]. now rewrite <- !app_assoc. }
  destruct Hprobe as (w1 & Hprobe & Hpage & Hout & Hcalls).
  unfold test_zk_setup. rewrite (bind_ok _ _ _ _ _ Hprobe).
  apply bind_raise. unfold create_note.
  set (w2 := {| page := pg;
                stdout := stdout w1 ++
                  [nl +:+ "2. Testing Poseidon note creation via UI..."];
                calls := calls w1 ++ [CGoto bridge_url; CLoadState "networkidle"] |}).
  assert (Hnav : forall k : M unit,
            (print (nl +:+ "2. Testing Poseidon note creation via UI...");;
             page_goto bridge_url;;
             page_wait_for_load_state "networkidle";; k) w1 = k w2).
  { intros k. unfold mbind, M_bind, print, page_goto,
      page_wait_for_load_state, called. simpl. rewrite Hpage, Hgoto. simpl.
    rewrite Hidle. simpl. unfold w2. now rewrite <- !app_assoc. }
  rewrite Hnav. apply bind_raise. unfold setup_generate_step.
  rewrite (when_present_found generate_btn _ w2 e rest Hfound).
  apply bind_raise.
  set (w3 := called (CCount generate_btn) (page w2) w2).
  rewrite (click_on_target (First generate_btn) false w3 e
             (target_first (page w3) generate_btn e rest Hfound)).
  change (page w3) with pg. rewrite Hraise. unfold w3, called. simpl.
  rewrite Hout, Hcalls. now rewrite <- !app_assoc.
Qed.

End UnhandledStep.

Lemma zk_setup_step_error_ends_run_witness :
  @test_zk_setup (stub_browser stuck_generate) (stub_start stuck_generate) =
  (Raise "Timeout 30000ms exceeded.",
   @Build_World (stub_browser stuck_generate) blank
     [ "1. Testing circuit files accessibility...";
       "   deposit.wasm: 200 (1234 bytes)";
       "   deposit_final.zkey: 200 (56789 bytes)";
       "   deposit_vk.json: 200 (321 bytes)";
       nl +:+ "2. Testing Poseidon note creation via UI..." ]
     [ CGet wasm_url; CGet zkey_url; CGet vk_url; CGoto bridge_url;
       CLoadState "networkidle"; CCount generate_btn;
       CClick (stub_elem stuck_generate (selector_of generate_btn) 0) false ]).
Proof.
  apply (@zk_setup_step_error_ends_run (stub_browser stuck_generate)
           (stub_start stuck_generate) blank blank blank blank blank blank
           (circuit_file "1234") (circuit_file "56789") (circuit_file "321")
           (stub_elem stuck_generate (selector_of generate_btn) 0)
           [ stub_elem stuck_generate (selector_of generate_btn) 1 ]
           "Timeout 30000ms exceeded."); reflexivity.
Defined.

Section Navigation.
Context {B : Browser}.

(** The navigation of [test_deposit_flow] is outside every [try]: when
    [page.goto] raises, the run ends with that exception after its first
    line, and nothing else is called. *)
Theorem deposit_flow_navigation_error_ends_run (w : World) (p' : Page)
    (err : string) (Hgoto : goto (page w) bridge_url = (p', Some err)) :
  test_deposit_flow w =
  (Raise err,
   {| page := p';
      stdout := stdout w ++ [ "1. Navigating to /bridge..." ];
      calls := calls w ++ [ CGoto bridge_url ] |}).
Proof.
  unfold test_deposit_flow. apply bind_raise.
  unfold navigate, mbind, M_bind, print, page_goto, called. simpl.
  rewrite Hgoto. reflexivity.
Qed.

(** A screenshot outside the [try] blocks that raises ends the run as well:
    when the screenshot taken before the amount step raises, the amount step
    raises that exception without entering its [try] block. *)
Theorem amount_step_screenshot_error (w : World) (p' : Page) (err : string)
    (Hshot : screenshot (page w) "/tmp/bridge-3-amount-page.png"
             = (p', Some err)) :
  amount_step w =
  (Raise err,
   {| page := p';
      stdout := stdout w ++ [ nl +:+ "3. Entering amount..." ];
      calls := calls w ++ [ CShot "/tmp/bridge-3-amount-page.png" ] |}).
Proof.
  unfold amount_step, mbind, M_bind, print, page_screenshot, called. simpl.
  rewrite Hshot. reflexivity.
Qed.

End Navigation.

Lemma deposit_flow_navigation_error_ends_run_witness :
  @test_deposit_flow offline_browser (@start offline_browser blank) =
  (Raise "net::ERR_CONNECTION_REFUSED",
   @Build_World offline_browser blank
     [ "1. Navigating to /bridge..." ] [ CGoto bridge_url ]).
Proof.
  apply (@deposit_flow_navigation_error_ends_run offline_browser
           (@start offline_browser blank) blank "net::ERR_CONNECTION_REFUSED").
  reflexivity.
Defined.

Lemma amount_step_screenshot_error_witness :
  @amount_step full_disk_browser (@start full_disk_browser blank) =
  (Raise "ENOSPC: no space left on device",
   @Build_World full_disk_browser blank
     [ nl +:+ "3. Entering amount..." ]
     [ CShot "/tmp/bridge-3-amount-page.png" ]).
Proof.
  apply (@amount_step_screenshot_error full_disk_browser
           (@start full_disk_browser blank) blank
           "ENOSPC: no space left on device").
  reflexivity.
Defined.

(** ** The filters of test-zk-proof.py and the report of test-proof.py *)

(** For an ASCII line: it is shown among the Poseidon/commitment logs exactly
    when it is in the buffer and has [Poseidon] as written or [commitment] in
    any case; it is shown among the proof logs exactly when it has one of
    [zk], [proof], [snark], [circom] in any case. *)
Theorem setup_filters_keep_matching_lines (logs : list string) (log : string)
    (Hlog : is_ascii log = true) :
  (In log (poseidon_logs logs) <->
   In log logs /\
   (substring_of "Poseidon" log \/ substring_of "commitment" (lower log))) /\
  (In log (zk_setup_logs logs) <->
   In log logs /\
   exists kw, In kw [ "zk"; "proof"; "snark"; "circom" ] /\
              substring_of kw (lower log)).
Proof.
  unfold poseidon_logs, zk_setup_logs, zk_filter, zk_setup_keywords. split.
  - rewrite List.filter_In, orb_true_iff, !str_in_spec. reflexivity.
  - rewrite List.filter_In, existsb_In.
    split; intros [Hin (kw & Hkw & H)]; (split; [exact Hin |]);
      exists kw; (split; [exact Hkw |]); now apply str_in_spec.
Qed.

Lemma setup_filters_keep_matching_lines_witness :
  In "[log] SNARK ready" (zk_setup_logs [ "[log] a"; "[log] SNARK ready" ]).
Proof.
  apply (setup_filters_keep_matching_lines
           [ "[log] a"; "[log] SNARK ready" ] "[log] SNARK ready" eq_refl).
  split; [right; now left |].
  exists "snark". split; [right; right; now left |].
  now exists "[log] ", " ready".
Defined.

Section EmptyReport.
Context {B : Browser}.

(** When the console buffer is ASCII and none of its entries has any of the
    keywords, the report says so in place of the filtered logs, and still
    prints the last thirty entries and the completion line. *)
Theorem report_without_matches (w : World)
    (Hascii : forall log,
       In log (map log_entry (console (page w))) -> is_ascii log = true)
    (Hnone : forall log kw,
       In log (map log_entry (console (page w))) -> In kw zk_keywords ->
       ~ substring_of (lower kw) (lower log)) :
  report w =
  (Ok tt,
   {| page := page w;
      stdout :=
        stdout w ++
        [ nl +:+ str_repeat "=" 50; "CONSOLE LOGS (ZK/Proof related):";
          str_repeat "=" 50; "(No ZK-related logs captured)";
          nl +:+ str_repeat "=" 50; "ALL CONSOLE LOGS (last 30):";
          str_repeat "=" 50 ] ++
        last_n 30 (map log_entry (console (page w))) ++ [ completed_line ];
      calls := calls w ++ [ CClose ] |}).
Proof.
  rewrite report_run. unfold report_lines.
  assert (Hempty : zk_logs (map log_entry (console (page w))) = []).
  { destruct (zk_logs (map log_entry (console (page w)))) as [|log l] eqn:Hz;
      [reflexivity |].
    assert (Hin : In log (zk_logs (map log_entry (console (page w)))))
      by (rewrite Hz; now left).
    apply correlate_In in Hin.
    destruct Hin as [Hin (kw & Hkw & Hsub)].
    apply str_in_spec in Hsub.
    destruct (Hnone log kw Hin Hkw Hsub). }
  rewrite Hempty. reflexivity.
Qed.

End EmptyReport.

Lemma report_without_matches_witness :
  stdout (snd (@report (stub_browser bare) (stub_start bare))) =
  [ nl +:+ str_repeat "=" 50; "CONSOLE LOGS (ZK/Proof related):";
    str_repeat "=" 50; "(No ZK-related logs captured)";
    nl +:+ str_repeat "=" 50; "ALL CONSOLE LOGS (last 30):";
    str_repeat "=" 50; completed_line ].
Proof.
  rewrite (@report_without_matches (stub_browser bare) (stub_start bare)).
  - reflexivity.
  - intros log [].
  - intros log kw [].
Defined.
